(** * gpx-speed-map: the speed-limit map pipeline of [plot_speed_map.py]

    A shallow embedding of the script: the sampler, the Overpass lookups,
    the speed resolver, the per-point collection loop, the fuel-station
    locator, the map builder and [main], followed by the properties the
    specification states about them.

    Conventions.
    - A Python [str] is a [string] whose characters are read as the code
      points 0..255; raw [maxspeed] values outside that range are not
      covered.
    - A Python [int] is a [Z]; a Python [float] and a numpy [float64] are a
      [spec_float] with the binary64 parameters.
    - A Python value that is a [str] or [None] is an [option string].
    - Console output ([print]) and the pause between requests
      ([time.sleep]) are left out: nothing below depends on them. *)

From Stdlib Require Import ZArith List String Ascii Bool Lia DecimalString.
From Stdlib Require Import DecimalPos.
From Stdlib Require Import SpecFloat.
From Stdlib Require Import Reals Lra.
Import ListNotations.

Local Open Scope string_scope.
Local Open Scope list_scope.
Local Open Scope Z_scope.

(** ** Python exceptions and results *)

Module Py.

(** The exception classes the script can meet.  All of them derive from
    [Exception], so an [except Exception] clause catches each one.
    [UnicodeDecodeError] is the subclass of [ValueError] that reading a
    file raises on bytes that are not UTF-8. *)
Inductive exn : Type :=
| AttributeError
| IndexError
| KeyError
| TypeError
| ValueError
| UnicodeDecodeError
| OSError
| GPXException
| RequestException
| JSONDecodeError
| OverpassException.

(** What evaluating an expression or a call gives. *)
Inductive outcome (A : Type) : Type :=
| Returned (a : A)
| Raised (e : exn).
Arguments Returned {A} a.
Arguments Raised {A} e.

Definition bind {A B} (c : outcome A) (k : A -> outcome B) : outcome B :=
  match c with
  | Returned a => k a
  | Raised e => Raised e
  end.

(** [try: c  except Exception: h] *)
Definition try_except {A} (c : outcome A) (h : exn -> outcome A) : outcome A :=
  match c with
  | Returned a => Returned a
  | Raised e => h e
  end.

Definition of_option {A} (e : exn) (o : option A) : outcome A :=
  match o with
  | Some a => Returned a
  | None => Raised e
  end.

End Py.
Import Py.

Declare Scope py_scope.
Delimit Scope py_scope with py.
Notation "x <- c ;; k" := (Py.bind c (fun x => k))
  (at level 61, c at next level, right associativity) : py_scope.

(** ** Strings: [str.split()] and [int(str)] *)

Definition code (c : ascii) : Z := Z.of_N (N_of_ascii c).

(** [str.isspace] on one character: TAB..CR, FS..US, space, NEL and the
    no-break space are the white-space code points below 256. *)
Definition isspace (c : ascii) : bool :=
  let n := code c in
  ((9 <=? n) && (n <=? 13)) || ((28 <=? n) && (n <=? 32))
  || (n =? 133) || (n =? 160).

(** [s.split()]: the maximal runs of characters that are not white space.
    [tok] is the run being read, if any. *)
Fixpoint split_from (tok : option string) (s : string) : list string :=
  match s with
  | EmptyString =>
      match tok with
      | Some t => [t]
      | None => []
      end
  | String c rest =>
      if isspace c then
        match tok with
        | Some t => t :: split_from None rest
        | None => split_from None rest
        end
      else
        split_from (Some (match tok with
                          | Some t => (t ++ String c EmptyString)%string
                          | None => String c EmptyString
                          end)) rest
  end.

Definition split (s : string) : list string := split_from None s.

(** The decimal digits [int] accepts below code point 256 are '0'..'9'. *)
Definition digit_value (c : ascii) : option Z :=
  let n := code c in
  if (48 <=? n) && (n <=? 57) then Some (n - 48) else None.

(** Digits of an [int] literal: at least one digit, and single underscores
    only between two digits.  [after_digit] tells whether the previous
    character was a digit. *)
Fixpoint int_digits (acc : Z) (after_digit : bool) (s : string) : option Z :=
  match s with
  | EmptyString => if after_digit then Some acc else None
  | String c rest =>
      match digit_value c with
      | Some d => int_digits (10 * acc + d) true rest
      | None =>
          if (code c =? 95) && after_digit
          then int_digits acc false rest
          else None
      end
  end.

Fixpoint lstrip (s : string) : string :=
  match s with
  | String c rest => if isspace c then lstrip rest else s
  | EmptyString => EmptyString
  end.

Fixpoint rstrip (s : string) : string :=
  match s with
  | EmptyString => EmptyString
  | String c rest =>
      match rstrip rest with
      | EmptyString => if isspace c then EmptyString else String c EmptyString
      | r => String c r
      end
  end.

(** The interpreter converts a decimal numeral of at most this many digits
    ([sys.get_int_max_str_digits()], 4300 unless the interpreter is
    configured otherwise); a longer one raises [ValueError]. *)
Definition int_max_str_digits : Z := 4300.

(** The number of digits of a numeral; underscores do not count. *)
Fixpoint count_digits (s : string) : Z :=
  match s with
  | EmptyString => 0
  | String c rest =>
      match digit_value c with
      | Some _ => 1 + count_digits rest
      | None => count_digits rest
      end
  end.

(** The numeral after the sign: its digits are checked, then counted
    against the cap, then converted. *)
Definition int_numeral (s : string) : option Z :=
  match int_digits 0 false s with
  | Some n => if int_max_str_digits <? count_digits s then None else Some n
  | None => None
  end.

(** [int(s)] in base 10: surrounding white space is dropped, then an
    optional sign and the digits.  [None] stands for [ValueError]. *)
Definition int_of_str (s : string) : option Z :=
  match rstrip (lstrip s) with
  | String c rest =>
      if code c =? 43 then int_numeral rest
      else if code c =? 45 then option_map Z.opp (int_numeral rest)
      else int_numeral (String c rest)
  | EmptyString => None
  end.

(** [str(n)] and [f"{n}"] for an [int] of at most [int_max_str_digits]
    digits, as [int_of_str] returns them; on a longer one [str] raises. *)
Definition str_of_int (n : Z) : string := NilZero.string_of_int (Z.to_int n).

(** ** The speed code table and the resolver *)

(** A [dict] with string keys, in insertion order. *)
Definition dict (V : Type) : Type := list (string * V).

Fixpoint dict_get {V} (d : dict V) (k : string) : option V :=
  match d with
  | [] => None
  | (k', v) :: rest => if String.eqb k' k then Some v else dict_get rest k
  end.

(** [k in d] *)
Definition dict_mem {V} (d : dict V) (k : string) : bool :=
  match dict_get d k with
  | Some _ => true
  | None => false
  end.

Definition SPEED_CODE_MAPPING : dict Z :=
  [ ("FR:urban", 50); ("FR:rural", 80); ("FR:trunk", 110); ("FR:motorway", 130) ].

(** The body of the [try] block of [parse_speed].  [val] is a [str] or
    [None]: [None in d] is false, and [None.split()] raises
    [AttributeError]. *)
Definition parse_speed_try (val : option string) : outcome (option Z) :=
  match val with
  | None => Raised AttributeError
  | Some s =>
      if dict_mem SPEED_CODE_MAPPING s then
        (v <- of_option KeyError (dict_get SPEED_CODE_MAPPING s) ;;
         Returned (Some v))%py
      else
        (tok <- of_option IndexError (nth_error (split s) 0) ;;
         n <- of_option ValueError (int_of_str tok) ;;
         Returned (Some n))%py
  end.

Definition parse_speed (val : option string) : outcome (option Z) :=
  try_except (parse_speed_try val) (fun _ => Returned None).

(** The resolver as the specification words it: the code table first, then
    the first white-space-delimited token read as an integer, else
    unknown. *)
Definition resolve_spec (raw : option string) : option Z :=
  match raw with
  | None => None
  | Some s =>
      match dict_get SPEED_CODE_MAPPING s with
      | Some v => Some v
      | None =>
          match split s with
          | tok :: _ => int_of_str tok
          | [] => None
          end
      end
  end.

(** ** binary64 arithmetic, as numpy and Python floats have it *)

Module F64.

Definition prec : Z := 53.
Definition emax : Z := 1024.

Definition float : Type := spec_float.

Definition zero : float := S754_zero false.

(** Conversion of an integer, rounding to nearest even. *)
Definition of_int (z : Z) : float := binary_normalize prec emax z 0 false.

Definition add : float -> float -> float := SFadd prec emax.
Definition sub : float -> float -> float := SFsub prec emax.
Definition mul : float -> float -> float := SFmul prec emax.
Definition div : float -> float -> float := SFdiv prec emax.
Definition eqb : float -> float -> bool := SFeqb.
Definition ltb : float -> float -> bool := SFltb.
Definition leb : float -> float -> bool := SFleb.

(** [numpy.floor]: the largest integral float below or equal to [x]. *)
Definition floor (x : float) : float :=
  match x with
  | S754_finite s m e =>
      if 0 <=? e then x
      else binary_normalize prec emax
             (Z.shiftr (cond_Zopp s (Zpos m)) (- e)) 0 false
  | _ => x
  end.

Definition int64_min : Z := - 2 ^ 63.

(** [astype(int)]: the C conversion to a 64-bit integer, which truncates;
    NaN, the infinities and values out of range give the most negative
    integer, as the x86-64 conversion does. *)
Definition to_int64 (x : float) : Z :=
  match x with
  | S754_zero _ => 0
  | S754_finite s m e =>
      let t := cond_Zopp s (if 0 <=? e then Z.shiftl (Zpos m) e
                            else Z.shiftr (Zpos m) (- e)) in
      if (int64_min <=? t) && (t <? 2 ^ 63) then t else int64_min
  | _ => int64_min
  end.

End F64.

(** ** The sampler *)

(** [numpy.arange(0, num, dtype=float64)] *)
Definition arange (num : Z) : list F64.float :=
  map (fun i => F64.of_int (Z.of_nat i)) (seq 0 (Z.to_nat num)).

(** [y[-1] = v] on a non-empty array. *)
Definition set_last (y : list F64.float) (v : F64.float) : list F64.float :=
  match y with
  | [] => []
  | _ => removelast y ++ [v]
  end.

(** [numpy.linspace(start, stop, num, dtype=int)] for integer [start] and
    [stop], with the default [endpoint=True]: the samples are computed in
    binary64 as [i * ((stop - start) / (num - 1)) + start], the last one is
    overwritten with [stop], and all are floored and converted. *)
Definition linspace_int (start stop num : Z) : outcome (list Z) :=
  if num <? 0 then Raised ValueError
  else
    let div := num - 1 in
    let fstart := F64.of_int start in
    let fstop := F64.of_int stop in
    let delta := F64.sub fstop fstart in
    let y := arange num in
    let y :=
      if 0 <? div then
        let step := F64.div delta (F64.of_int div) in
        if F64.eqb step F64.zero
        then map (fun v => F64.mul (F64.div v (F64.of_int div)) delta) y
        else map (fun v => F64.mul v step) y
      else map (fun v => F64.mul v delta) y in
    let y := map (fun v => F64.add v fstart) y in
    let y := if 1 <? num then set_last y fstop else y in
    Returned (map F64.to_int64 (map F64.floor y)).

(** [l[i]] for a list: a negative index counts from the end, and an index
    out of range raises [IndexError]. *)
Definition getitem {A} (l : list A) (i : Z) : outcome A :=
  let n := Z.of_nat (List.length l) in
  let j := if i <? 0 then i + n else i in
  if (0 <=? j) && (j <? n)
  then of_option IndexError (nth_error l (Z.to_nat j))
  else Raised IndexError.

(** [[f(x) for x in l]] where [f] may raise. *)
Fixpoint traverse {A B} (f : A -> outcome B) (l : list A) : outcome (list B) :=
  match l with
  | [] => Returned []
  | x :: rest =>
      (y <- f x ;;
       ys <- traverse f rest ;;
       Returned (y :: ys))%py
  end.

Definition get_sample_points {A} (points : list A) (max_points : Z)
  : outcome (list A) :=
  let len := Z.of_nat (List.length points) in
  if len <=? max_points then Returned points
  else
    (indices <- linspace_int 0 (len - 1) max_points ;;
     traverse (getitem points) indices)%py.

(** ** The outside world: the track file, the Overpass service, the clock *)

(** A GPS point, [(latitude, longitude)]. *)
Definition point : Type := F64.float * F64.float.

(** What [gpxpy.parse] finds in a file: tracks, their segments, their
    points.  Only latitude and longitude are read. *)
Definition gpx : Type := list (list (list point)).

(** A file that is well-formed XML with no track in it parses to the empty
    [gpx]. *)
Inductive file_content : Type :=
| Unreadable                (* [open] raises: no such file, no permission *)
| Undecodable               (* the bytes are not UTF-8: reading them raises *)
| Malformed                 (* not well-formed XML: [gpxpy.parse] raises *)
| Track (g : gpx).

(** One element of the JSON answer to the speed query; the ['tags'] key may
    be absent. *)
Record element : Type := { el_tags : option (dict string) }.

Inductive json_body : Type :=
| NotJson                   (* [response.json()] raises *)
| NoElements                (* no ['elements'] key *)
| Elements (els : list element).

Inductive http_reply : Type :=
| NoReply                   (* [requests.post] raises: no connection, timeout *)
| Reply (status_code : Z) (body : json_body).

(** A node of the map database, with the coordinates already converted to
    floats. *)
Record osm_node : Type := {
  node_lat : F64.float;
  node_lon : F64.float;
  node_tags : dict string
}.

(** [(south, west, north, east)] *)
Definition bounding_box : Type := F64.float * F64.float * F64.float * F64.float.

(** The world a run meets.  The Overpass service may answer each request
    differently, so its answers are indexed by the number of requests sent
    before.  For the fuel query the service either fails or evaluates the
    query on its database. *)
Record world : Type := {
  file_system : string -> file_content;
  speed_service : nat -> point -> http_reply;
  fuel_service : nat -> option (list osm_node);
  clock : string            (* [datetime.now().strftime('%Y%m%d_%H%M%S')] *)
}.

(** *** Overpass QL, as far as the fuel query uses it *)

Inductive tag_filter : Type :=
| HasKey (k : string)            (* [['k']] *)
| HasValue (k v : string).       (* [['k'='v']] *)

(** [node filters (bbox);] *)
Record statement : Type := {
  st_filters : list tag_filter;
  st_bbox : bounding_box
}.

(** A union [( s1; s2; ); out center;] *)
Definition query : Type := list statement.

Definition matches_filter (n : osm_node) (f : tag_filter) : bool :=
  match f with
  | HasKey k => dict_mem (node_tags n) k
  | HasValue k v =>
      match dict_get (node_tags n) k with
      | Some v' => String.eqb v' v
      | None => false
      end
  end.

Definition in_bbox (b : bounding_box) (n : osm_node) : bool :=
  let '(south, west, north, east) := b in
  F64.leb south (node_lat n) && F64.leb (node_lat n) north
  && F64.leb west (node_lon n) && F64.leb (node_lon n) east.

Definition matches_statement (n : osm_node) (s : statement) : bool :=
  forallb (matches_filter n) (st_filters s) && in_bbox (st_bbox s) n.

(** The nodes a union selects: each node of the database that one of the
    statements matches, once. *)
Definition eval_query (db : list osm_node) (q : query) : list osm_node :=
  filter (fun n => existsb (matches_statement n) q) db.

(** ** The run: requests sent and files written *)

Inductive request : Type :=
| SpeedRequest (p : point)
| FuelRequest (q : query).

(** The map artefact. *)
Inductive color : Type := red | blue | gray | green | orange.

Inductive popup : Type :=
| Text (s : string)
| StationPopup (name : string) (sp98 sp95 : bool).
    (* the name, a line break, and a tick or a cross for each grade *)

Record marker : Type := {
  mk_location : point;
  mk_popup : popup;
  mk_color : color
}.

Record polyline : Type := {
  pl_from : point;
  pl_to : point;
  pl_color : color;
  pl_weight : Z;
  pl_popup : popup
}.

Inductive group_name : Type :=
| SpeedAtLeast (limit : Z)       (* "Speed >= limit km/h", with the sign U+2265 *)
| SpeedBelow (limit : Z)         (* "Speed < limit km/h" *)
| UnknownSpeed.                  (* "Unknown speed" *)

Record feature_group : Type := {
  fg_name : group_name;
  fg_show : bool;
  fg_lines : list polyline
}.

(** What can be added to a map.  [TileLayer] is the default OpenStreetMap
    tile layer, which [folium.Map] adds to itself when it is created. *)
Inductive child : Type :=
| TileLayer
| MarkerChild (m : marker)
| GroupChild (g : feature_group)
| LayerControl (collapsed : bool).

(** An element of the page around the map: the legend box, with the
    threshold its two labels show. *)
Inductive html_element : Type :=
| Legend (limit : Z).

(** A map, with the HTML of the figure it is rendered in
    ([get_root().html]). *)
Record folium_map : Type := {
  map_location : point;
  map_zoom_start : Z;
  map_children : list child;
  root_html : list html_element
}.

Record state : Type := {
  requests : list request;
  files : list (string * folium_map)
}.

Definition initial : state := {| requests := []; files := [] |}.

(** A step of the run: it reads the world, updates the state, and returns
    or raises.  The state reached is kept when it raises. *)
Definition run (A : Type) : Type := world -> state -> outcome A * state.

Module Run.

Definition ret {A} (a : A) : run A := fun _ s => (Returned a, s).

Definition raise {A} (e : exn) : run A := fun _ s => (Raised e, s).

Definition lift {A} (c : outcome A) : run A := fun _ s => (c, s).

Definition bind {A B} (c : run A) (k : A -> run B) : run B :=
  fun w s =>
    match c w s with
    | (Returned a, s') => k a w s'
    | (Raised e, s') => (Raised e, s')
    end.

(** Send a request: it is recorded, and the number of earlier requests is
    returned. *)
Definition send (r : request) : run nat :=
  fun _ s =>
    (Returned (List.length (requests s)),
     {| requests := requests s ++ [r]; files := files s |}).

Definition ask {A} (f : world -> A) : run A := fun w s => (Returned (f w), s).

Definition write (name : string) (m : folium_map) : run unit :=
  fun _ s =>
    (Returned tt, {| requests := requests s; files := files s ++ [(name, m)] |}).

End Run.

Declare Scope run_scope.
Delimit Scope run_scope with run.
Notation "x <- c ;; k" := (Run.bind c (fun x => k))
  (at level 61, c at next level, right associativity) : run_scope.

(** ** The track loader *)

Definition load_gpx_points (filepath : string) : run (list point) :=
  (content <- Run.ask (fun w => file_system w filepath) ;;
   match content with
   | Unreadable => Run.raise OSError
   | Undecodable => Run.raise UnicodeDecodeError
   | Malformed => Run.raise GPXException
   | Track g => Run.ret (List.concat (List.concat g))
   end)%run.

(** ** The speed lookup *)

(** [el.get('tags', {})] *)
Definition get_tags (el : element) : dict string :=
  match el_tags el with
  | Some t => t
  | None => []
  end.

(** [[el['tags']['maxspeed'] for el in els if 'maxspeed' in el.get('tags', {})]] *)
Fixpoint maxspeed_values (els : list element) : outcome (list string) :=
  match els with
  | [] => Returned []
  | el :: rest =>
      if dict_mem (get_tags el) "maxspeed" then
        (t <- of_option KeyError (el_tags el) ;;
         v <- of_option KeyError (dict_get t "maxspeed") ;;
         vs <- maxspeed_values rest ;;
         Returned (v :: vs))%py
      else maxspeed_values rest
  end.

(** The [try] block of [query_max_speed], given the service's reply.
    [Some r] stands for [return r]; [None] for leaving the block without
    returning, when the status is not 200. *)
Definition query_max_speed_try (reply : http_reply)
  : outcome (option (option string)) :=
  match reply with
  | NoReply => Raised RequestException
  | Reply status_code body =>
      if status_code =? 200 then
        (els <- match body with
                | NotJson => Raised JSONDecodeError
                | NoElements => Raised KeyError
                | Elements els => Returned els
                end ;;
         speeds <- maxspeed_values els ;;
         Returned (Some (hd_error speeds)))%py
      else Returned None
  end.

Definition query_max_speed (latitude longitude : F64.float) : run (option string) :=
  (n <- Run.send (SpeedRequest (latitude, longitude)) ;;
   reply <- Run.ask (fun w => speed_service w n (latitude, longitude)) ;;
   r <- Run.lift (try_except (query_max_speed_try reply)
                             (fun _ => Returned None)) ;;
   match r with
   | Some v => Run.ret v
   | None => Run.ret None
   end)%run.

(** ** The collection loop *)

Record observation : Type := {
  lat : F64.float;
  lon : F64.float;
  maxspeed : option string
}.

(** The loop of [collect_speed_data], with [results] the list built so far.
    The resolver is called where the loop calls it, for the progress line. *)
Fixpoint collect_loop (points : list point) (limit_speed : Z)
    (results : list observation) : run (list observation) :=
  match points with
  | [] => Run.ret results
  | (la, lo) :: rest =>
      (max_speed <- query_max_speed la lo ;;
       _ <- match max_speed with
            | Some _ => Run.lift (parse_speed max_speed)
            | None => Run.ret None
            end ;;
       collect_loop rest limit_speed
         (results ++ [{| lat := la; lon := lo; maxspeed := max_speed |}]))%run
  end.

Definition collect_speed_data (points : list point) (limit_speed : Z)
  : run (list observation) :=
  collect_loop points limit_speed [].

(** ** The bounding box *)

(** [min(l)] and [max(l)] keep the first extreme element; an empty list
    raises [ValueError]. *)
Fixpoint min_from (cur : F64.float) (l : list F64.float) : F64.float :=
  match l with
  | [] => cur
  | x :: rest => min_from (if F64.ltb x cur then x else cur) rest
  end.

Fixpoint max_from (cur : F64.float) (l : list F64.float) : F64.float :=
  match l with
  | [] => cur
  | x :: rest => max_from (if F64.ltb cur x then x else cur) rest
  end.

Definition py_min (l : list F64.float) : outcome F64.float :=
  match l with
  | [] => Raised ValueError
  | x :: rest => Returned (min_from x rest)
  end.

Definition py_max (l : list F64.float) : outcome F64.float :=
  match l with
  | [] => Raised ValueError
  | x :: rest => Returned (max_from x rest)
  end.

Definition get_bounding_box (points : list point) : outcome bounding_box :=
  let lats := map fst points in
  let lons := map snd points in
  (south <- py_min lats ;;
   west <- py_min lons ;;
   north <- py_max lats ;;
   east <- py_max lons ;;
   Returned (south, west, north, east))%py.

(** ** The fuel-station locator *)

Record station : Type := {
  stn_lat : F64.float;
  stn_lon : F64.float;
  sp95 : bool;
  sp98 : bool;
  stn_name : string
}.

(** The query text of [get_fuel_stations]: fuel amenities that carry the
    key [fuel:octane_98], united with those that carry [fuel:octane_95]. *)
Definition fuel_query (bbox : bounding_box) : query :=
  [ {| st_filters := [HasValue "amenity" "fuel"; HasKey "fuel:octane_98"];
       st_bbox := bbox |};
    {| st_filters := [HasValue "amenity" "fuel"; HasKey "fuel:octane_95"];
       st_bbox := bbox |} ].

(** [tags.get(k) == 'yes'] *)
Definition tag_is_yes (tags : dict string) (k : string) : bool :=
  match dict_get tags k with
  | Some v => String.eqb v "yes"
  | None => false
  end.

Definition station_of_node (node : osm_node) : station :=
  {| stn_lat := node_lat node;
     stn_lon := node_lon node;
     sp95 := tag_is_yes (node_tags node) "fuel:octane_95";
     sp98 := tag_is_yes (node_tags node) "fuel:octane_98";
     stn_name := match dict_get (node_tags node) "name" with
                 | Some s => s
                 | None => "Station-service"
                 end |}.

Definition get_fuel_stations (bbox : bounding_box) : run (list station) :=
  (n <- Run.send (FuelRequest (fuel_query bbox)) ;;
   answer <- Run.ask (fun w => fuel_service w n) ;;
   match answer with
   | None => Run.raise OverpassException
   | Some db => Run.ret (map station_of_node (eval_query db (fuel_query bbox)))
   end)%run.

(** ** The map *)

(** [child.add_to(m)] *)
Definition add_child (c : child) (m : folium_map) : folium_map :=
  {| map_location := map_location m;
     map_zoom_start := map_zoom_start m;
     map_children := map_children m ++ [c];
     root_html := root_html m |}.

(** [m.get_root().html.add_child(folium.Element(h))] *)
Definition add_html (h : html_element) (m : folium_map) : folium_map :=
  {| map_location := map_location m;
     map_zoom_start := map_zoom_start m;
     map_children := map_children m;
     root_html := root_html m ++ [h] |}.

(** [folium.Map(location=..., zoom_start=...)] *)
Definition new_map (location : point) (zoom_start : Z) : folium_map :=
  {| map_location := location;
     map_zoom_start := zoom_start;
     map_children := [TileLayer];
     root_html := [] |}.

Definition station_marker (s : station) : marker :=
  {| mk_location := (stn_lat s, stn_lon s);
     mk_popup := StationPopup (stn_name s) (sp98 s) (sp95 s);
     mk_color := if sp95 s && sp98 s then green else orange |}.

Definition add_fuel_stations_to_map (speed_map : folium_map) (stations : list station)
  : folium_map :=
  fold_left (fun m s => add_child (MarkerChild (station_marker s)) m)
            stations speed_map.

(** [str(v)] for a [str] or [None]. *)
Definition py_str (v : option string) : string :=
  match v with
  | Some s => s
  | None => "None"
  end.

(** One pass of the marker loop of [build_speed_map]. *)
Definition point_marker (limit_speed : Z) (pt : observation) : marker :=
  let speed_raw := maxspeed pt in
  let '(color, label) :=
    match parse_speed speed_raw with
    | Returned (Some speed_val) =>
        (if limit_speed <=? speed_val then red else blue,
         (str_of_int speed_val ++ " km/h")%string)
    | Returned None => (gray, "Unknown")
    | Raised _ => (gray, py_str speed_raw)
    end in
  {| mk_location := (lat pt, lon pt);
     mk_popup := Text ("Maxspeed: " ++ label);
     mk_color := color |}.

(** The markers the loop adds to [cluster]. *)
Definition cluster_markers (limit_speed : Z) (results : list observation)
  : list marker :=
  map (point_marker limit_speed) results.

(** [filter(None, l)] keeps the elements that are true: an [int] is true
    when it is not zero, [None] is false. *)
Definition filter_true (l : list (option Z)) : list Z :=
  flat_map (fun o => match o with
                     | Some v => if v =? 0 then [] else [v]
                     | None => []
                     end) l.

(** [max(l, default=None)] *)
Definition max_or_none (l : list Z) : option Z :=
  match l with
  | [] => None
  | x :: rest => Some (fold_left Z.max rest x)
  end.

Definition segment_speed (s1 s2 : option Z) : option Z :=
  max_or_none (filter_true [s1; s2]).

(** The lines held by the three layer groups. *)
Record layers : Type := {
  fast_group : list polyline;
  slow_group : list polyline;
  unknown_group : list polyline
}.

Definition no_lines : layers :=
  {| fast_group := []; slow_group := []; unknown_group := [] |}.

(** One pass of the line loop, between [results[i]] and [results[i+1]]. *)
Definition draw_line (limit_speed : Z) (a b : observation) (g : layers)
  : outcome layers :=
  (s1 <- parse_speed (maxspeed a) ;;
   s2 <- parse_speed (maxspeed b) ;;
   let line color label :=
     {| pl_from := (lat a, lon a);
        pl_to := (lat b, lon b);
        pl_color := color;
        pl_weight := 4;
        pl_popup := Text ("Maxspeed: " ++ label) |} in
   match segment_speed s1 s2 with
   | None =>
       Returned {| fast_group := fast_group g;
                   slow_group := slow_group g;
                   unknown_group := unknown_group g ++ [line gray "Unknown speed"] |}
   | Some seg_speed =>
       let label := (str_of_int seg_speed ++ " km/h")%string in
       if limit_speed <=? seg_speed then
         Returned {| fast_group := fast_group g ++ [line red label];
                     slow_group := slow_group g;
                     unknown_group := unknown_group g |}
       else
         Returned {| fast_group := fast_group g;
                     slow_group := slow_group g ++ [line blue label];
                     unknown_group := unknown_group g |}
   end)%py.

(** [for i in range(len(results) - 1)] *)
Fixpoint draw_lines (limit_speed : Z) (results : list observation) (g : layers)
  : outcome layers :=
  match results with
  | a :: (b :: _) as rest =>
      (g' <- draw_line limit_speed a b g ;;
       draw_lines limit_speed rest g')%py
  | _ => Returned g
  end.

Definition build_speed_map (points : list point) (results : list observation)
    (limit_speed : Z) : run folium_map :=
  (start <- Run.lift (getitem points 0) ;;
   let speed_map := new_map start 11 in
   bounding_box <- Run.lift (get_bounding_box points) ;;
   stations <- get_fuel_stations bounding_box ;;
   let speed_map := add_fuel_stations_to_map speed_map stations in
   (* the markers go to [cluster], and [cluster.add_to(speed_map)] is
      commented out *)
   let cluster := cluster_markers limit_speed results in
   groups <- Run.lift (draw_lines limit_speed results no_lines) ;;
   let speed_map :=
     add_child (GroupChild {| fg_name := SpeedAtLeast limit_speed; fg_show := true;
                              fg_lines := fast_group groups |}) speed_map in
   let speed_map :=
     add_child (GroupChild {| fg_name := SpeedBelow limit_speed; fg_show := true;
                              fg_lines := slow_group groups |}) speed_map in
   let speed_map :=
     add_child (GroupChild {| fg_name := UnknownSpeed; fg_show := true;
                              fg_lines := unknown_group groups |}) speed_map in
   let speed_map := add_child (LayerControl false) speed_map in
   let speed_map := add_html (Legend limit_speed) speed_map in
   Run.ret speed_map)%run.

(** ** [main] *)

Record arguments : Type := {
  file : string;
  limit_speed : Z;
  max_points : Z
}.

Definition main (args : arguments) : run unit :=
  (points <- load_gpx_points (file args) ;;
   sampled_points <- Run.lift (get_sample_points points (max_points args)) ;;
   results <- collect_speed_data sampled_points (limit_speed args) ;;
   speed_map <- build_speed_map sampled_points results (limit_speed args) ;;
   timestamp <- Run.ask clock ;;
   Run.write ("speed_map_" ++ timestamp ++ ".html") speed_map)%run.

(** ** Definitions used by the proofs *)

(** The record [mrs] locates the fraction [a / b]: its mantissa is the
    integer part, the round bit tells whether the rest reaches one half,
    the sticky bit whether the rest is neither zero nor one half. *)
Definition located (mrs : shr_record) (a b : Z) : Prop :=
  let m := shr_m mrs in
  0 <= m /\ m * b <= a < (m + 1) * b /\
  shr_r mrs = (b <=? 2 * (a - m * b)) /\
  shr_s mrs = negb (a - m * b =? 0) && negb (2 * (a - m * b) =? b).

Ltac bool_arith :=
  repeat match goal with
    | |- context [Z.leb ?x ?y] => destruct (Z.leb_spec x y)
    | |- context [Z.eqb ?x ?y] => destruct (Z.eqb_spec x y)
    end;
  simpl; try reflexivity; try lia.

(** Unit roundoff of binary64. *)
Definition u64 : R := powerRZ 2 (-53).

(** The real number a float stands for. *)
Definition B2R (x : spec_float) : R :=
  match x with
  | S754_finite s m e => ((if s then -1 else 1) * IZR (Zpos m) * powerRZ 2 e)%R
  | _ => 0%R
  end.

(** The step [linspace] multiplies by, and the index it computes at
    position [i] before the last. *)
Definition lin_step (stop div : Z) : F64.float :=
  F64.div (F64.sub (F64.of_int stop) (F64.of_int 0)) (F64.of_int div).

Definition sample_index (step : F64.float) (i : nat) : Z :=
  F64.to_int64
    (F64.floor (F64.add (F64.mul (F64.of_int (Z.of_nat i)) step) (F64.of_int 0))).

(** [out] holds the elements of [points] at the positions [indices], in
    order. *)
Definition picks {A} (points : list A) (indices : list Z) (out : list A) : Prop :=
  Forall2 (fun i p => 0 <= i /\ nth_error points (Z.to_nat i) = Some p) indices out.

(** The sampler's contract as the specification words it, for one input:
    unchanged when short enough, else exactly [max_count] points that
    include the first and the last input point. *)
Definition sampler_contract {A} (points : list A) (max_count : Z) : Prop :=
  let len := Z.of_nat (List.length points) in
  (len <= max_count -> get_sample_points points max_count = Returned points) /\
  (max_count < len ->
   exists out,
     get_sample_points points max_count = Returned out /\
     Z.of_nat (List.length out) = max_count /\
     nth_error out 0 = nth_error points 0 /\
     nth_error out (List.length out - 1) = nth_error points (List.length points - 1)).

(** The lookup as the specification words it: the [maxspeed] value of the
    first element that carries the tag, when the request succeeds with
    status 200; else nothing. *)
Fixpoint first_tagged (els : list element) : option string :=
  match els with
  | [] => None
  | el :: rest =>
      match dict_get (get_tags el) "maxspeed" with
      | Some v => Some v
      | None => first_tagged rest
      end
  end.

Definition lookup_spec (reply : http_reply) : option string :=
  match reply with
  | Reply status_code (Elements els) =>
      if status_code =? 200 then first_tagged els else None
  | _ => None
  end.

(** The observations the collection loop is to produce when [n] requests
    were sent before it starts: one per point, in order. *)
Fixpoint observations (w : world) (n : nat) (points : list point) : list observation :=
  match points with
  | [] => []
  | (la, lo) :: rest =>
      {| lat := la; lon := lo;
         maxspeed := lookup_spec (speed_service w n (la, lo)) |}
      :: observations w (S n) rest
  end.

(** The state after [rs] more requests. *)
Definition after_requests (s : state) (rs : list request) : state :=
  {| requests := requests s ++ rs; files := files s |}.

(** The segment speed as the specification words it: the maximum of the
    two endpoint speeds, an unknown endpoint being ignored. *)
Definition segment_speed_spec (s1 s2 : option Z) : option Z :=
  match s1, s2 with
  | Some x, Some y => Some (Z.max x y)
  | Some x, None => Some x
  | None, Some y => Some y
  | None, None => None
  end.

(** Sample data for the concrete runs below. *)
Definition paris : point := (F64.of_int 48, F64.of_int 2).
Definition reims : point := (F64.of_int 49, F64.of_int 4).
Definition lyon : point := (F64.of_int 46, F64.of_int 5).

Definition observed (p : point) (raw : option string) : observation :=
  {| lat := fst p; lon := snd p; maxspeed := raw |}.

Definition whole_earth : bounding_box :=
  (F64.of_int (-90), F64.of_int (-180), F64.of_int 90, F64.of_int 180).

(** A fuel station tagged as selling neither grade. *)
Definition dry_station : osm_node :=
  {| node_lat := F64.of_int 48; node_lon := F64.of_int 3;
     node_tags := [("amenity", "fuel"); ("fuel:octane_95", "no")] |}.

(** A world with one two-point track, a service that knows the speed of
    neither point, and the database [db] behind the fuel query, which
    succeeds when [up] holds. *)
Definition small_world (up : bool) (db : list osm_node) : world :=
  {| file_system := fun _ => Track [[[paris; reims]]];
     speed_service := fun _ _ => Reply 200 (Elements []);
     fuel_service := fun _ => if up then Some db else None;
     clock := "20240101_120000" |}.

(** A world whose track file holds no point. *)
Definition empty_track_world : world :=
  {| file_system := fun _ => Track [[[]]; []];
     speed_service := fun _ _ => NoReply;
     fuel_service := fun _ => Some [];
     clock := "20240101_120000" |}.

(** The errors the loader raises, which the specification calls
    [LoadError]: the file cannot be opened, cannot be decoded, or is not
    parsed. *)
Definition load_error (e : exn) : bool :=
  match e with
  | OSError | UnicodeDecodeError | GPXException => true
  | _ => false
  end.

(** The abort the specification describes for a track without points: the
    run raises an error of the loader, and nothing was sent or written. *)
Definition load_error_abort (args : arguments) (w : world) : Prop :=
  exists e, main args w initial = (Raised e, initial) /\ load_error e = true.

Definition default_arguments : arguments :=
  {| file := "track.gpx"; limit_speed := 110; max_points := 400 |}.

(** The nodes the specification has the locator return: fuel amenities in
    the box with one of the two grade tags set to [yes]. *)
Definition affirmative_fuel_nodes (db : list osm_node) (bbox : bounding_box)
  : list osm_node :=
  filter (fun n =>
            matches_filter n (HasValue "amenity" "fuel")
            && (tag_is_yes (node_tags n) "fuel:octane_98"
                || tag_is_yes (node_tags n) "fuel:octane_95")
            && in_bbox bbox n) db.

(** The nodes the query of the code selects: fuel amenities in the box that
    carry one of the two grade keys, whatever its value. *)
Definition keyed_fuel_nodes (db : list osm_node) (bbox : bounding_box)
  : list osm_node :=
  filter (fun n =>
            matches_filter n (HasValue "amenity" "fuel")
            && (dict_mem (node_tags n) "fuel:octane_98"
                || dict_mem (node_tags n) "fuel:octane_95")
            && in_bbox bbox n) db.

(** A child of the map that is a marker of a sampled point. *)
Definition is_point_marker (c : child) : bool :=
  match c with
  | MarkerChild {| mk_popup := Text _ |} => true
  | _ => false
  end.

(** The colour and popup the specification gives the marker of a resolved
    speed. *)
Definition marker_color_spec (limit : Z) (speed : option Z) : color :=
  match speed with
  | Some v => if v <? limit then blue else red
  | None => gray
  end.

Definition marker_label_spec (speed : option Z) : string :=
  match speed with
  | Some v => "Maxspeed: " ++ str_of_int v ++ " km/h"
  | None => "Maxspeed: Unknown"
  end.

(** ** Further definitions used by the proofs *)

(** The speed of an observation as the line loop takes it: the resolved
    speed, with 0 counted as unknown. *)
Definition line_speed (o : observation) : option Z :=
  match resolve_spec (maxspeed o) with
  | Some v => if v =? 0 then None else Some v
  | None => None
  end.

(** [a] is directly followed by [b] in [l]. *)
Definition consecutive {A} (a b : A) (l : list A) : Prop :=
  exists pre post, l = pre ++ a :: b :: post.

Definition line_between (a b : observation) (c : color) (label : string) : polyline :=
  {| pl_from := (lat a, lon a);
     pl_to := (lat b, lon b);
     pl_color := c;
     pl_weight := 4;
     pl_popup := Text ("Maxspeed: " ++ label) |}.

(** What a line of each group looks like, for the observations [results]
    and the threshold [limit]. *)
Definition fast_line (limit : Z) (results : list observation) (pl : polyline) : Prop :=
  exists a b v,
    consecutive a b results /\
    segment_speed_spec (line_speed a) (line_speed b) = Some v /\
    limit <= v /\
    pl = line_between a b red (str_of_int v ++ " km/h").

Definition slow_line (limit : Z) (results : list observation) (pl : polyline) : Prop :=
  exists a b v,
    consecutive a b results /\
    segment_speed_spec (line_speed a) (line_speed b) = Some v /\
    v < limit /\
    pl = line_between a b blue (str_of_int v ++ " km/h").

Definition unknown_line (results : list observation) (pl : polyline) : Prop :=
  exists a b,
    consecutive a b results /\
    segment_speed_spec (line_speed a) (line_speed b) = None /\
    pl = line_between a b gray "Unknown speed".

(** The pairs [(l[i], l[i+1])] for [i] in [range(len(l) - 1)], in order. *)
Definition adjacent {A} (l : list A) : list (A * A) := combine l (tl l).

Definition location (o : observation) : point := (lat o, lon o).

Definition endpoints (pl : polyline) : point * point := (pl_from pl, pl_to pl).

(** The line of one pair of observations: red or blue by the segment speed
    of the pair, gray when it has none. *)
Definition segment_line (limit : Z) (ab : observation * observation) : polyline :=
  match segment_speed_spec (line_speed (fst ab)) (line_speed (snd ab)) with
  | Some v =>
      line_between (fst ab) (snd ab) (if limit <=? v then red else blue)
                   (str_of_int v ++ " km/h")
  | None => line_between (fst ab) (snd ab) gray "Unknown speed"
  end.

(** The lines of all pairs of consecutive observations, in order. *)
Definition segment_lines (limit : Z) (results : list observation) : list polyline :=
  map (segment_line limit) (adjacent results).

Definition color_eqb (c d : color) : bool :=
  match c, d with
  | red, red | blue, blue | gray, gray | green, green | orange, orange => true
  | _, _ => false
  end.

(** The lines of colour [c] among [lines], in order. *)
Definition lines_of_color (c : color) (lines : list polyline) : list polyline :=
  filter (fun pl => color_eqb (pl_color pl) c) lines.

(** The three groups that hold [lines] by colour. *)
Definition grouped (lines : list polyline) : layers :=
  {| fast_group := lines_of_color red lines;
     slow_group := lines_of_color blue lines;
     unknown_group := lines_of_color gray lines |}.


Definition is_speed_request (r : request) : bool :=
  match r with
  | SpeedRequest _ => true
  | FuelRequest _ => false
  end.

Definition is_nan (x : F64.float) : bool :=
  match x with
  | S754_nan => true
  | _ => false
  end.

(** Neither coordinate of the point is a NaN. *)
Definition plain_point (p : point) : Prop :=
  is_nan (fst p) = false /\ is_nan (snd p) = false.

(** A node with no tag at the point [p]. *)
Definition node_at (p : point) : osm_node :=
  {| node_lat := fst p; node_lon := snd p; node_tags := [] |}.

(** The place of a float in the order [SFcompare] follows: the class
    first, then the exponent and the mantissa. *)
Definition float_key (x : F64.float) : Z * Z * Z :=
  match x with
  | S754_infinity true => (-2, 0, 0)
  | S754_finite true m e => (-1, - e, - Zpos m)
  | S754_zero _ => (0, 0, 0)
  | S754_finite false m e => (1, e, Zpos m)
  | S754_infinity false => (2, 0, 0)
  | S754_nan => (3, 0, 0)
  end.

Definition key_le (a b : Z * Z * Z) : Prop :=
  let '(a1, a2, a3) := a in
  let '(b1, b2, b3) := b in
  a1 < b1 \/ (a1 = b1 /\ (a2 < b2 \/ (a2 = b2 /\ a3 <= b3))).

(** The number a decimal numeral stands for, read from the left with [acc]
    the value of the digits already read. *)
Fixpoint uint_value (acc : Z) (d : Decimal.uint) : Z :=
  match d with
  | Decimal.Nil => acc
  | Decimal.D0 l => uint_value (10 * acc + 0) l
  | Decimal.D1 l => uint_value (10 * acc + 1) l
  | Decimal.D2 l => uint_value (10 * acc + 2) l
  | Decimal.D3 l => uint_value (10 * acc + 3) l
  | Decimal.D4 l => uint_value (10 * acc + 4) l
  | Decimal.D5 l => uint_value (10 * acc + 5) l
  | Decimal.D6 l => uint_value (10 * acc + 6) l
  | Decimal.D7 l => uint_value (10 * acc + 7) l
  | Decimal.D8 l => uint_value (10 * acc + 8) l
  | Decimal.D9 l => uint_value (10 * acc + 9) l
  end.

(** The number of digits of a decimal numeral. *)
Fixpoint uint_length (d : Decimal.uint) : Z :=
  match d with
  | Decimal.Nil => 0
  | Decimal.D0 l | Decimal.D1 l | Decimal.D2 l | Decimal.D3 l | Decimal.D4 l
  | Decimal.D5 l | Decimal.D6 l | Decimal.D7 l | Decimal.D8 l | Decimal.D9 l =>
      1 + uint_length l
  end.

(** The numeral does not start with the digit 0. *)
Definition leading_nonzero (d : Decimal.uint) : bool :=
  match d with
  | Decimal.Nil | Decimal.D0 _ => false
  | _ => true
  end.

(** No character of the string is white space. *)
Fixpoint spaceless (s : string) : bool :=
  match s with
  | EmptyString => true
  | String c rest => negb (isspace c) && spaceless rest
  end.

(** The string starts with a character that no key of the code table
    starts with. *)
Definition starts_unlike_code (s : string) : bool :=
  match s with
  | EmptyString => true
  | String c _ => negb (code c =? 70)
  end.

(** * Properties *)

Local Arguments Z.mul : simpl never.
Local Arguments Z.add : simpl never.
Local Arguments Z.sub : simpl never.
Local Arguments Z.pow : simpl never.
Local Arguments Z.leb : simpl never.
Local Arguments Z.eqb : simpl never.

(** ** binary64: rounding of the shifted mantissa *)

Lemma digits2_pos_size p : digits2_pos p = Pos.size p.
Proof. induction p; simpl; congruence. Qed.

Lemma digits2_bounds p :
  2 ^ (Zpos (digits2_pos p) - 1) <= Zpos p < 2 ^ Zpos (digits2_pos p).
Proof.
  rewrite digits2_pos_size. split.
  - pose proof (Pos.size_le p) as H.
    apply Pos2Z.pos_le_pos in H. rewrite Pos2Z.inj_pow in H.
    replace (Zpos (Pos.size p)) with (Z.succ (Zpos (Pos.size p) - 1)) in H by lia.
    rewrite Z.pow_succ_r in H by lia. lia.
  - pose proof (Pos.size_gt p) as H.
    apply Pos2Z.pos_lt_pos in H. now rewrite Pos2Z.inj_pow in H.
Qed.

Lemma located_shr_1 mrs a b :
  0 < b -> located mrs a b -> located (shr_1 mrs) a (2 * b).
Proof.
  intros Hb (Hm & Hab & Hr & Hs). destruct mrs as [m r s]. simpl in *.
  assert (Hrs : (r || s) = negb (a - m * b =? 0)).
  { rewrite Hr, Hs. bool_arith. }
  destruct m as [|p|p]; [| |lia].
  - unfold located; simpl. rewrite Hrs.
    repeat split; try lia; bool_arith.
  - destruct p as [p|p|]; unfold located; simpl; rewrite Hrs.
    + rewrite (Pos2Z.inj_xI p) in *. repeat split; try lia; bool_arith.
    + rewrite (Pos2Z.inj_xO p) in *. repeat split; try lia; bool_arith.
    + repeat split; try lia; bool_arith.
Qed.

Lemma located_iter p : forall mrs a b,
  0 < b -> located mrs a b -> located (SpecFloat.iter_pos shr_1 p mrs) a (2 ^ Zpos p * b).
Proof.
  induction p as [p IH|p IH|]; intros mrs a b Hb H; simpl SpecFloat.iter_pos.
  - rewrite (Pos2Z.inj_xI p).
    replace (2 ^ (2 * Z.pos p + 1) * b) with (2 ^ Z.pos p * (2 ^ Z.pos p * (2 * b))).
    + assert (0 < 2 ^ Z.pos p) by (apply Z.pow_pos_nonneg; lia).
      apply IH; [nia|]. apply IH; [lia|]. now apply located_shr_1.
    + replace (2 * Z.pos p + 1) with (Z.pos p + Z.pos p + 1) by lia.
      rewrite !Z.pow_add_r, Z.pow_1_r by lia. ring.
  - rewrite (Pos2Z.inj_xO p).
    replace (2 ^ (2 * Z.pos p) * b) with (2 ^ Z.pos p * (2 ^ Z.pos p * b)).
    + assert (0 < 2 ^ Z.pos p) by (apply Z.pow_pos_nonneg; lia).
      apply IH; [nia|]. now apply IH.
    + replace (2 * Z.pos p) with (Z.pos p + Z.pos p) by lia. rewrite Z.pow_add_r by lia. ring.
  - change (2 ^ 1) with 2. now apply located_shr_1.
Qed.

Lemma located_round mrs a b :
  0 < b -> located mrs a b ->
  let m' := round_nearest_even (shr_m mrs) (loc_of_shr_record mrs) in
  shr_m mrs <= m' <= shr_m mrs + 1 /\ Z.abs (2 * (m' * b - a)) <= b.
Proof.
  intros Hb (Hm & Hab & Hr & Hs). destruct mrs as [m r s]. simpl in *.
  destruct r, s; simpl.
  - symmetry in Hr. apply Z.leb_le in Hr. lia.
  - symmetry in Hr. apply Z.leb_le in Hr.
    symmetry in Hs. apply andb_false_iff in Hs.
    assert (2 * (a - m * b) = b).
    { destruct Hs as [Hs|Hs]; apply negb_false_iff, Z.eqb_eq in Hs; lia. }
    destruct (Z.even m); lia.
  - symmetry in Hr. apply Z.leb_gt in Hr. lia.
  - symmetry in Hr. apply Z.leb_gt in Hr. lia.
Qed.

Lemma digits2_unique p k :
  2 ^ (k - 1) <= Zpos p < 2 ^ k -> Zpos (digits2_pos p) = k.
Proof.
  intros [Hlo Hhi]. pose proof (digits2_bounds p) as [Hlo' Hhi'].
  set (d := Zpos (digits2_pos p)) in *.
  assert (0 < k).
  { destruct (Z.ltb_spec 0 k); [assumption|].
    exfalso. destruct (Z.eq_dec k 0) as [->|Hk].
    - change (2 ^ 0) with 1 in Hhi. lia.
    - rewrite (Z.pow_neg_r 2 k) in Hhi by lia. lia. }
  destruct (Z.lt_trichotomy d k) as [Hlt|[Heq|Hgt]]; [|assumption|].
  - assert (2 ^ d <= 2 ^ (k - 1)) by (apply Z.pow_le_mono_r; lia). lia.
  - assert (2 ^ k <= 2 ^ (d - 1)) by (apply Z.pow_le_mono_r; lia). lia.
Qed.

Lemma fexp_normal e : -1074 <= e - 53 -> fexp 53 1024 e = e - 53.
Proof. unfold fexp, emin. lia. Qed.

Lemma shr_fexp_located (mx : positive) ex lx a b :
  0 < b -> located (shr_record_of_loc (Zpos mx) lx) a b ->
  let d := Zpos (digits2_pos mx) in
  53 <= d -> -1074 <= d + ex - 53 ->
  exists mrs, shr_fexp 53 1024 (Zpos mx) ex lx = (mrs, d + ex - 53) /\
              located mrs a (2 ^ (d - 53) * b) /\
              2 ^ 52 <= shr_m mrs < 2 ^ 53.
Proof.
  intros Hb Hloc d Hd He.
  unfold shr_fexp. simpl Zdigits2. fold d. rewrite fexp_normal by lia.
  assert (Hm : Zpos mx * b <= a < (Zpos mx + 1) * b).
  { destruct Hloc as (_ & H & _). destruct lx as [|[| |]]; exact H. }
  pose proof (digits2_bounds mx) as Hdig. fold d in Hdig.
  assert (Hpw : 2 ^ d = 2 ^ 53 * 2 ^ (d - 53)).
  { rewrite <- Z.pow_add_r by lia. f_equal. lia. }
  assert (Hpw' : 2 ^ (d - 1) = 2 ^ 52 * 2 ^ (d - 53)).
  { rewrite <- Z.pow_add_r by lia. f_equal. lia. }
  assert (Hp : 0 < 2 ^ (d - 53)) by (apply Z.pow_pos_nonneg; lia).
  assert (Hres : forall mrs, located mrs a (2 ^ (d - 53) * b) ->
                         2 ^ 52 <= shr_m mrs < 2 ^ 53).
  { intros mrs (H0 & H1 & _). split.
    - assert (2 ^ 52 * (2 ^ (d - 53) * b) < (shr_m mrs + 1) * (2 ^ (d - 53) * b)) by nia.
      assert (0 < 2 ^ (d - 53) * b) by nia. nia.
    - assert (shr_m mrs * (2 ^ (d - 53) * b) < 2 ^ 53 * (2 ^ (d - 53) * b)) by nia.
      assert (0 < 2 ^ (d - 53) * b) by nia. nia. }
  replace (d + ex - 53 - ex) with (d - 53) by lia.
  remember (d - 53) as n eqn:Hn. destruct n as [|p|p]; [| |lia].
  - simpl shr. replace (d + ex - 53) with ex by lia.
    change (2 ^ 0) with 1 in *. rewrite Z.mul_1_l in *.
    eexists; split; [reflexivity|]. split; [assumption|]. now apply Hres.
  - simpl shr. replace (ex + Z.pos p) with (d + ex - 53) by lia.
    eexists; split; [reflexivity|].
    assert (Hl : located (SpecFloat.iter_pos shr_1 p (shr_record_of_loc (Z.pos mx) lx)) a
                   (2 ^ Z.pos p * b)) by now apply located_iter.
    split; [assumption|]. now apply Hres.
Qed.

Lemma round_aux_spec (mx : positive) ex lx a b :
  0 < b -> located (shr_record_of_loc (Zpos mx) lx) a b ->
  let d := Zpos (digits2_pos mx) in
  53 <= d -> -1074 <= d + ex - 53 -> d + ex <= 1023 ->
  exists m' e',
    binary_round_aux 53 1024 false (Zpos mx) ex lx = S754_finite false m' e' /\
    Zpos (digits2_pos m') = 53 /\
    (e' = d + ex - 53 \/ e' = d + ex - 52) /\
    Z.abs (2 * (Zpos m' * 2 ^ (e' - (d + ex - 53)) * (2 ^ (d - 53) * b) - a))
      <= 2 ^ (d - 53) * b.
Proof.
  intros Hb Hloc d Hd He Hmax.
  destruct (shr_fexp_located mx ex lx a b Hb Hloc Hd He) as (mrs & E & Hl & Hr).
  fold d in E, Hl.
  assert (Hp : 0 < 2 ^ (d - 53) * b).
  { assert (0 < 2 ^ (d - 53)) by (apply Z.pow_pos_nonneg; lia). nia. }
  destruct (located_round mrs a _ Hp Hl) as [Hmr Habs].
  unfold binary_round_aux. rewrite E.
  set (mr := round_nearest_even (shr_m mrs) (loc_of_shr_record mrs)) in *.
  set (e1 := d + ex - 53) in *.
  destruct (Z.eq_dec mr (2 ^ 53)) as [Emr|Nmr].
  - rewrite Emr in *. 
    assert (E2 : shr_fexp 53 1024 (2 ^ 53) e1 loc_Exact =
                 ({| shr_m := 2 ^ 52; shr_r := false; shr_s := false |}, e1 + 1)).
    { unfold shr_fexp. change (Zdigits2 (2 ^ 53)) with 54.
      rewrite fexp_normal by lia. replace (54 + e1 - 53 - e1) with 1 by lia.
      reflexivity. }
    rewrite E2. simpl shr_m.
    change (2 ^ 52) with (Zpos (2 ^ 52)%positive).
    replace (e1 + 1 <=? 1024 - 53) with true by (symmetry; apply Z.leb_le; lia).
    exists (2 ^ 52)%positive, (e1 + 1). split; [reflexivity|].
    split; [reflexivity|]. split; [right; lia|].
    replace (e1 + 1 - e1) with 1 by lia.
    change (Z.pos (2 ^ 52) * 2 ^ 1) with (2 ^ 53). exact Habs.
  - assert (Hrange : 2 ^ 52 <= mr < 2 ^ 53) by lia.
    destruct mr as [|q|q] eqn:Eq; try lia.
    assert (Hdq : Zpos (digits2_pos q) = 53) by (apply digits2_unique; exact Hrange).
    assert (E2 : shr_fexp 53 1024 (Zpos q) e1 loc_Exact =
                 ({| shr_m := Zpos q; shr_r := false; shr_s := false |}, e1)).
    { unfold shr_fexp. simpl Zdigits2. rewrite Hdq.
      rewrite fexp_normal by lia. replace (53 + e1 - 53 - e1) with 0 by lia.
      reflexivity. }
    rewrite E2. simpl shr_m.
    replace (e1 <=? 1024 - 53) with true by (symmetry; apply Z.leb_le; lia).
    exists q, e1. split; [reflexivity|]. split; [assumption|]. split; [left; reflexivity|].
    replace (e1 - e1) with 0 by lia. change (2 ^ 0) with 1. rewrite Z.mul_1_r. exact Habs.
Qed.

Local Open Scope R_scope.

Lemma IZR_pow2 n : (0 <= n)%Z -> IZR (2 ^ n) = powerRZ 2 n.
Proof.
  intros Hn. destruct n as [|p|p]; [reflexivity| |lia].
  change (2 ^ Z.pos p)%Z with (Z.pow_pos 2 p). apply Zpower_pos_powerRZ.
Qed.

Lemma Rabs_bound x y : Rabs x <= y -> - y <= x <= y.
Proof. unfold Rabs. destruct (Rcase_abs x); lra. Qed.

Lemma powerRZ2_pos e : 0 < powerRZ 2 e.
Proof. apply powerRZ_lt. lra. Qed.

Lemma powerRZ2_add a b : powerRZ 2 (a + b) = powerRZ 2 a * powerRZ 2 b.
Proof. apply powerRZ_add. lra. Qed.

Lemma u64_pos : 0 < u64.
Proof. apply powerRZ2_pos. Qed.

Lemma u64_val : u64 * IZR (2 ^ 53) = 1.
Proof.
  unfold u64. rewrite IZR_pow2 by lia. rewrite <- powerRZ2_add. reflexivity.
Qed.

Lemma round_aux_R (mx : positive) ex lx a b :
  (0 < b)%Z -> located (shr_record_of_loc (Zpos mx) lx) a b ->
  let d := Zpos (digits2_pos mx) in
  (53 <= d)%Z -> (-1074 <= d + ex - 53)%Z -> (d + ex <= 1023)%Z ->
  exists m' e',
    binary_round_aux 53 1024 false (Zpos mx) ex lx = S754_finite false m' e' /\
    Zpos (digits2_pos m') = 53%Z /\
    (e' = d + ex - 53 \/ e' = d + ex - 52)%Z /\
    Rabs (IZR (Zpos m') * powerRZ 2 e' - IZR a / IZR b * powerRZ 2 ex)
      <= u64 * (IZR a / IZR b * powerRZ 2 ex).
Proof.
  intros Hb Hloc d Hd He Hmax.
  destruct (round_aux_spec mx ex lx a b Hb Hloc Hd He Hmax)
    as (m' & e' & E & Hd' & He' & Habs).
  fold d in He', Habs.
  exists m', e'. repeat split; try assumption.
  assert (Hm : (Zpos mx * b <= a)%Z).
  { destruct Hloc as (_ & H & _). destruct lx as [|[| |]]; apply H. }
  pose proof (digits2_bounds mx) as [Hlo _]. fold d in Hlo.
  assert (Hpw' : (2 ^ (d - 1) = 2 ^ 52 * 2 ^ (d - 53))%Z).
  { rewrite <- Z.pow_add_r by lia. f_equal. lia. }
  set (N := (2 ^ (d - 53))%Z) in *.
  assert (HN : (0 < N)%Z) by (apply Z.pow_pos_nonneg; lia).
  set (k := (e' - (d + ex - 53))%Z) in *.
  assert (Hk : (0 <= k)%Z) by lia.
  assert (Ee : powerRZ 2 e' = IZR (2 ^ k) * IZR N * powerRZ 2 ex).
  { unfold N. rewrite !IZR_pow2 by lia. rewrite <- !powerRZ2_add. f_equal. lia. }
  rewrite Ee.
  set (M := (Zpos m' * 2 ^ k)%Z) in *.
  assert (HM : IZR (Zpos m') * (IZR (2 ^ k) * IZR N * powerRZ 2 ex)
               = IZR M * IZR N * powerRZ 2 ex).
  { unfold M. rewrite mult_IZR. ring. }
  rewrite HM.
  pose proof (powerRZ2_pos ex) as HP. set (P := powerRZ 2 ex) in *.
  assert (Hbr : 0 < IZR b) by now apply IZR_lt.
  assert (HNr : 0 < IZR N) by now apply IZR_lt.
  set (X := IZR a / IZR b).
  assert (Ha : IZR a = X * IZR b) by (unfold X; field; lra).
  assert (H1 : - (IZR N * IZR b) <= 2 * (IZR M * (IZR N * IZR b) - IZR a) <= IZR N * IZR b).
  { apply Z.abs_le in Habs. destruct Habs as [Hl Hu]. split.
    - apply IZR_le in Hl. rewrite opp_IZR, !mult_IZR, minus_IZR, !mult_IZR in Hl. exact Hl.
    - apply IZR_le in Hu. rewrite !mult_IZR, minus_IZR, !mult_IZR in Hu. exact Hu. }
  assert (H2 : IZR (2 ^ 52) * IZR N * IZR b <= IZR a).
  { rewrite <- !mult_IZR. apply IZR_le. nia. }
  rewrite Ha in H1, H2.
  assert (H3 : - (IZR N / 2) <= IZR M * IZR N - X <= IZR N / 2).
  { split.
    - apply Rmult_le_reg_r with (2 * IZR b); [lra|]. nra.
    - apply Rmult_le_reg_r with (2 * IZR b); [lra|]. nra. }
  assert (H4 : IZR N / 2 <= u64 * X).
  { assert (IZR (2 ^ 52) * IZR N <= X).
    { apply Rmult_le_reg_r with (IZR b); [lra|]. lra. }
    pose proof u64_val as Hu. pose proof u64_pos as Hup.
    change (2 ^ 53)%Z with (2 * 2 ^ 52)%Z in Hu. rewrite mult_IZR in Hu.
    assert (u64 * (IZR (2 ^ 52) * IZR N) <= u64 * X) by (apply Rmult_le_compat_l; lra).
    replace (IZR N / 2) with ((u64 * (2 * IZR (2 ^ 52))) * (IZR N / 2)) by (rewrite Hu; ring).
    lra. }
  replace (IZR M * IZR N * P - X * P) with ((IZR M * IZR N - X) * P) by ring.
  rewrite Rabs_mult, (Rabs_right P) by lra.
  replace (u64 * (X * P)) with (u64 * X * P) by ring.
  apply Rmult_le_compat_r; [lra|].
  apply Rabs_le. lra.
Qed.

Local Open Scope Z_scope.

Lemma located_exact m : 0 <= m -> located (shr_record_of_loc m loc_Exact) m 1.
Proof.
  intros Hm. unfold located; simpl. repeat split; try lia; bool_arith.
Qed.

Lemma located_new_location nb q r :
  0 <= q -> 0 <= r < nb ->
  located (shr_record_of_loc q (new_location nb r)) (q * nb + r) nb.
Proof.
  intros Hq Hr. unfold new_location.
  destruct (Z.even nb) eqn:Ev.
  - unfold new_location_even. destruct (Z.eqb_spec r 0) as [->|Hr0].
    + unfold located; simpl. repeat split; try lia; bool_arith.
    + destruct (Z.compare_spec (2 * r) nb); unfold located; simpl;
        repeat split; try lia; bool_arith.
  - unfold new_location_odd. destruct (Z.eqb_spec r 0) as [->|Hr0].
    + unfold located; simpl. repeat split; try lia; bool_arith.
    + assert (Hodd : 2 * r <> nb).
      { intros <-. rewrite Z.even_mul in Ev. discriminate. }
      destruct (Z.compare_spec (2 * r + 1) nb); unfold located; simpl;
        repeat split; try lia; bool_arith.
Qed.

Lemma mul_spec mx ex my ey :
  Zpos (digits2_pos mx) = 53 -> Zpos (digits2_pos my) = 53 ->
  -500 <= ex + ey <= 500 ->
  exists m' e',
    SFmul 53 1024 (S754_finite false mx ex) (S754_finite false my ey)
      = S754_finite false m' e' /\
    Zpos (digits2_pos m') = 53 /\
    ex + ey + 52 <= e' <= ex + ey + 54 /\
    (Rabs (B2R (S754_finite false m' e')
           - B2R (S754_finite false mx ex) * B2R (S754_finite false my ey))
     <= u64 * (B2R (S754_finite false mx ex) * B2R (S754_finite false my ey)))%R.
Proof.
  intros Hdx Hdy He.
  pose proof (digits2_bounds mx) as Hbx. rewrite Hdx in Hbx.
  pose proof (digits2_bounds my) as Hby. rewrite Hdy in Hby.
  pose proof (digits2_bounds (mx * my)) as Hbp.
  set (d := Zpos (digits2_pos (mx * my))) in *.
  rewrite Pos2Z.inj_mul in Hbp.
  change (2 ^ (53 - 1)) with (2 ^ 52) in *.
  assert (Hprod : 2 ^ 104 <= Zpos mx * Zpos my < 2 ^ 106).
  { change (2 ^ 104) with (2 ^ 52 * 2 ^ 52). change (2 ^ 106) with (2 ^ 53 * 2 ^ 53). nia. }
  assert (Hd : 105 <= d <= 106).
  { split.
    - destruct (Z.le_gt_cases 105 d) as [|Hlt]; [assumption|].
      assert (2 ^ d <= 2 ^ 104) by (apply Z.pow_le_mono_r; lia). lia.
    - destruct (Z.le_gt_cases d 106) as [|Hgt]; [assumption|].
      assert (2 ^ 106 <= 2 ^ (d - 1)) by (apply Z.pow_le_mono_r; lia). lia. }
  destruct (round_aux_R (mx * my) (ex + ey) loc_Exact (Zpos (mx * my)) 1)
    as (m' & e' & E & Hd' & He' & Herr); try (fold d; lia).
  { apply located_exact. lia. }
  fold d in He'.
  exists m', e'. split; [exact E|]. split; [exact Hd'|]. split; [lia|].
  simpl B2R. rewrite Pos2Z.inj_mul, mult_IZR, powerRZ2_add in Herr.
  replace (1 * IZR (Zpos mx) * powerRZ 2 ex * (1 * IZR (Zpos my) * powerRZ 2 ey))%R
    with (IZR (Zpos mx) * IZR (Zpos my) / 1 * (powerRZ 2 ex * powerRZ 2 ey))%R by field.
  rewrite Rmult_1_l. exact Herr.
Qed.

Lemma div_spec mx ex my ey :
  Zpos (digits2_pos mx) = 53 -> Zpos (digits2_pos my) = 53 ->
  -500 <= ex - ey <= 500 ->
  exists m' e',
    SFdiv 53 1024 (S754_finite false mx ex) (S754_finite false my ey)
      = S754_finite false m' e' /\
    Zpos (digits2_pos m') = 53 /\
    ex - ey - 53 <= e' <= ex - ey - 51 /\
    (Rabs (B2R (S754_finite false m' e')
           - B2R (S754_finite false mx ex) / B2R (S754_finite false my ey))
     <= u64 * (B2R (S754_finite false mx ex) / B2R (S754_finite false my ey)))%R.
Proof.
  intros Hdx Hdy He.
  pose proof (digits2_bounds mx) as Hbx. rewrite Hdx in Hbx.
  pose proof (digits2_bounds my) as Hby. rewrite Hdy in Hby.
  change (2 ^ (53 - 1)) with (2 ^ 52) in *.
  unfold SFdiv, SFdiv_core_binary. simpl Zdigits2. rewrite Hdx, Hdy. simpl xorb.
  replace (53 + ex - (53 + ey)) with (ex - ey) by lia.
  rewrite fexp_normal by lia.
  rewrite Z.min_l by lia.
  replace (ex - ey - (ex - ey - 53)) with 53 by lia.
  rewrite Z.shiftl_mul_pow2 by lia.
  pose proof (Z_div_mod (Zpos mx * 2 ^ 53) (Zpos my) eq_refl) as Hdm.
  destruct (Z.div_eucl (Zpos mx * 2 ^ 53) (Zpos my)) as [q r].
  destruct Hdm as [Eq Hr].
  assert (Hq : 2 ^ 52 <= q < 2 ^ 54).
  { change (2 ^ 54) with (2 * 2 ^ 53). nia. }
  destruct q as [|qp|qp]; try lia.
  pose proof (digits2_bounds qp) as Hbq.
  set (d := Zpos (digits2_pos qp)) in *.
  assert (Hd : 53 <= d <= 54).
  { split.
    - destruct (Z.le_gt_cases 53 d) as [|Hlt]; [assumption|].
      assert (2 ^ d <= 2 ^ 52) by (apply Z.pow_le_mono_r; lia). lia.
    - destruct (Z.le_gt_cases d 54) as [|Hgt]; [assumption|].
      assert (2 ^ 54 <= 2 ^ (d - 1)) by (apply Z.pow_le_mono_r; lia). lia. }
  destruct (round_aux_R qp (ex - ey - 53) (new_location (Zpos my) r)
              (Zpos mx * 2 ^ 53) (Zpos my))
    as (m' & e' & E & Hd' & He' & Herr); try (fold d; lia).
  { rewrite Eq. replace (Z.pos my * Z.pos qp + r) with (Z.pos qp * Z.pos my + r) by ring.
    apply located_new_location; lia. }
  fold d in He'.
  exists m', e'. split; [exact E|]. split; [exact Hd'|]. split; [lia|].
  simpl B2R.
  replace (ex - ey - 53) with (53 * -1 + (ex - ey)) in Herr by lia.
  assert (Epow : powerRZ 2 ex = (powerRZ 2 (ex - ey) * powerRZ 2 ey)%R).
  { rewrite <- powerRZ2_add. f_equal. lia. }
  pose proof (powerRZ2_pos ey). pose proof (powerRZ2_pos (ex - ey)).
  assert (0 < IZR (Zpos my))%R by (apply IZR_lt; lia).
  replace (1 * IZR (Zpos mx) * powerRZ 2 ex / (1 * IZR (Zpos my) * powerRZ 2 ey))%R
    with (IZR (Zpos mx * 2 ^ 53) / IZR (Zpos my) * powerRZ 2 (53 * -1 + (ex - ey)))%R.
  - rewrite Rmult_1_l. exact Herr.
  - rewrite powerRZ2_add, Epow, mult_IZR.
    pose proof u64_val as Hu. unfold u64 in Hu.
    change (53 * -1) with (-53).
    set (U := powerRZ 2 (-53)) in *. 
    transitivity (IZR (Z.pos mx) / IZR (Z.pos my) * powerRZ 2 (ex - ey) * (U * IZR (2 ^ 53)))%R.
    + field. lra.
    + rewrite Hu. field. lra.
Qed.

Lemma iter_xO_val k p : Zpos (Pos.iter xO p k) = Zpos p * 2 ^ Zpos k.
Proof.
  pose proof (shift_pos_correct k p) as H. unfold shift_pos in H.
  rewrite H. rewrite Zpower_pos_is_exp_pow2 || idtac.
  change (Zpower_pos 2 k) with (2 ^ Zpos k). ring.
Qed.

Lemma of_int_spec z :
  0 < z < 2 ^ 53 ->
  exists m e,
    binary_normalize 53 1024 z 0 false = S754_finite false m e /\
    Zpos (digits2_pos m) = 53 /\ -52 <= e <= 1 /\
    B2R (S754_finite false m e) = IZR z.
Proof.
  intros Hz. destruct z as [|p|p]; try lia.
  unfold binary_normalize, binary_round.
  pose proof (digits2_bounds p) as Hb.
  set (d := Zpos (digits2_pos p)) in *.
  assert (Hd : 1 <= d <= 53).
  { split; [unfold d; lia|].
    destruct (Z.le_gt_cases d 53) as [|Hgt]; [assumption|].
    assert (2 ^ 53 <= 2 ^ (d - 1)) by (apply Z.pow_le_mono_r; lia). lia. }
  replace (d + 0) with d by lia. rewrite fexp_normal by lia.
  assert (Hal : exists mz, shl_align p 0 (d - 53) = (mz, d - 53) /\
                           Zpos mz = Zpos p * 2 ^ (53 - d)).
  { unfold shl_align. replace (d - 53 - 0) with (d - 53) by lia.
    destruct (d - 53) as [|k|k] eqn:Ek; try lia.
    - exists p. split; [reflexivity|]. replace (53 - d) with 0 by lia. 
      change (2 ^ 0) with 1. lia.
    - eexists. split; [reflexivity|]. rewrite iter_xO_val. f_equal. f_equal. lia. }
  destruct Hal as (mz & -> & Hmz).
  assert (Hpw : 2 ^ 53 = 2 ^ d * 2 ^ (53 - d)).
  { rewrite <- Z.pow_add_r by lia. f_equal. lia. }
  assert (Hpw' : 2 ^ 52 = 2 ^ (d - 1) * 2 ^ (53 - d)).
  { rewrite <- Z.pow_add_r by lia. f_equal. lia. }
  assert (Hp : 0 < 2 ^ (53 - d)) by (apply Z.pow_pos_nonneg; lia).
  assert (Hdz : Zpos (digits2_pos mz) = 53).
  { apply digits2_unique. change (2 ^ (53 - 1)) with (2 ^ 52). nia. }
  destruct (round_aux_spec mz (d - 53) loc_Exact (Zpos mz) 1)
    as (m' & e' & E & Hd' & He' & Herr); try (rewrite ?Hdz; lia).
  { apply located_exact. lia. }
  rewrite Hdz in He', Herr.
  exists m', e'. split; [exact E|]. split; [exact Hd'|]. split; [lia|].
  change (2 ^ (53 - 53)) with 1 in Herr.
  assert (Hval : Zpos m' * 2 ^ (e' - (53 + (d - 53) - 53)) = Zpos mz) by lia.
  simpl B2R. rewrite Rmult_1_l.
  assert (Ez : IZR (Zpos p) = (IZR (Zpos mz) * powerRZ 2 (d - 53))%R).
  { rewrite Hmz, mult_IZR, IZR_pow2 by lia. rewrite Rmult_assoc, <- powerRZ2_add.
    replace (53 - d + (d - 53)) with 0 by lia. simpl. ring. }
  rewrite Ez, <- Hval, mult_IZR, IZR_pow2 by lia.
  rewrite Rmult_assoc, <- powerRZ2_add. f_equal. f_equal. lia.
Qed.

(** ** binary64: conversion back to an integer *)

Lemma to_int64_spec m e :
  Zpos (digits2_pos m) = 53 -> e <= 9 ->
  let k := F64.to_int64 (S754_finite false m e) in
  (IZR k <= B2R (S754_finite false m e) < IZR k + 1)%R.
Proof.
  intros Hd He k. subst k.
  pose proof (digits2_bounds m) as Hb. rewrite Hd in Hb.
  unfold F64.to_int64, F64.int64_min. simpl cond_Zopp. simpl B2R. rewrite Rmult_1_l.
  destruct (Z.leb_spec 0 e) as [Hpos|Hneg].
  - rewrite Z.shiftl_mul_pow2 by lia.
    assert (2 ^ e <= 2 ^ 9) by (apply Z.pow_le_mono_r; lia).
    assert (0 < 2 ^ e) by (apply Z.pow_pos_nonneg; lia).
    assert (Hr : Zpos m * 2 ^ e < 2 ^ 63).
    { change (2 ^ 63) with (2 ^ 53 * (2 ^ 9 * 2)). nia. }
    replace ((- 2 ^ 63 <=? Z.pos m * 2 ^ e) && (Z.pos m * 2 ^ e <? 2 ^ 63)) with true.
    + rewrite mult_IZR, IZR_pow2 by lia. lra.
    + symmetry. apply andb_true_iff. split; [apply Z.leb_le|apply Z.ltb_lt]; lia.
  - rewrite Z.shiftr_div_pow2 by lia.
    set (N := 2 ^ (- e)) in *.
    assert (HN : 0 < N) by (apply Z.pow_pos_nonneg; lia).
    pose proof (Z.mul_div_le (Zpos m) N HN) as Hlo.
    pose proof (Z.mul_succ_div_gt (Zpos m) N HN) as Hhi.
    set (q := Zpos m / N) in *.
    assert (Hq : 0 <= q < 2 ^ 53) by (unfold q; split; [apply Z.div_pos; lia|]; nia).
    replace ((- 2 ^ 63 <=? q) && (q <? 2 ^ 63)) with true.
    + assert (EN : (powerRZ 2 e * IZR N = 1)%R).
      { unfold N. rewrite IZR_pow2 by lia. rewrite <- powerRZ2_add.
        replace (e + - e) with 0 by lia. reflexivity. }
      pose proof (powerRZ2_pos e) as HP.
      apply IZR_le in Hlo. apply IZR_lt in Hhi.
      rewrite mult_IZR in Hlo. rewrite mult_IZR, succ_IZR in Hhi.
      assert (HNr : (0 < IZR N)%R) by now apply IZR_lt.
      split.
      * apply Rmult_le_reg_r with (IZR N); [lra|].
        rewrite Rmult_assoc, EN. lra.
      * apply Rmult_lt_reg_r with (IZR N); [lra|].
        rewrite Rmult_assoc, EN. lra.
    + symmetry. apply andb_true_iff. split; [apply Z.leb_le|apply Z.ltb_lt]; lia.
Qed.

Lemma floor_int_spec m e :
  Zpos (digits2_pos m) = 53 -> e <= 9 ->
  let k := F64.to_int64 (F64.floor (S754_finite false m e)) in
  (IZR k <= B2R (S754_finite false m e) < IZR k + 1)%R.
Proof.
  intros Hd He k. subst k. unfold F64.floor.
  destruct (Z.leb_spec 0 e) as [Hpos|Hneg].
  - now apply to_int64_spec.
  - pose proof (to_int64_spec m e Hd He) as Hk. simpl in Hk.
    unfold F64.to_int64 in Hk. simpl cond_Zopp in *.
    replace (0 <=? e) with false in Hk by (symmetry; apply Z.leb_gt; lia).
    pose proof (digits2_bounds m) as Hb. rewrite Hd in Hb.
    rewrite Z.shiftr_div_pow2 in * by lia.
    set (N := 2 ^ (- e)) in *.
    assert (HN : 0 < N) by (apply Z.pow_pos_nonneg; lia).
    pose proof (Z.mul_div_le (Zpos m) N HN) as Hlo.
    set (q := Zpos m / N) in *.
    assert (Hq : 0 <= q < 2 ^ 53) by (unfold q; split; [apply Z.div_pos; lia|]; nia).
    replace ((F64.int64_min <=? q) && (q <? 2 ^ 63)) with true in Hk
      by (symmetry; apply andb_true_iff; unfold F64.int64_min;
          split; [apply Z.leb_le|apply Z.ltb_lt]; lia).
    destruct (Z.eq_dec q 0) as [E0|N0].
    + rewrite E0 in *. simpl. exact Hk.
    + destruct (of_int_spec q) as (m2 & e2 & E & Hd2 & He2 & Hv); [lia|].
      unfold F64.prec, F64.emax. rewrite E.
      pose proof (to_int64_spec m2 e2 Hd2 ltac:(lia)) as Hk2. cbv zeta in Hk2.
      rewrite Hv in Hk2.
      assert (F64.to_int64 (S754_finite false m2 e2) = q).
      { destruct Hk2 as [H1 H2]. apply le_IZR in H1.
        rewrite <- plus_IZR in H2. apply lt_IZR in H2. lia. }
      rewrite H. exact Hk.
Qed.

(** ** The samples of [linspace] *)

Lemma exponent_bound m e k :
  Zpos (digits2_pos m) = 53 -> 0 <= k ->
  (B2R (S754_finite false m e) < IZR (2 ^ (52 + k)))%R -> e < k.
Proof.
  intros Hd Hk Hv. destruct (Z.lt_ge_cases e k) as [|Hge]; [assumption|exfalso].
  pose proof (digits2_bounds m) as Hb. rewrite Hd in Hb.
  change (2 ^ (53 - 1)) with (2 ^ 52) in Hb.
  simpl B2R in Hv. rewrite Rmult_1_l in Hv.
  rewrite Z.pow_add_r, mult_IZR in Hv by lia.
  replace e with (k + (e - k)) in Hv by lia.
  rewrite powerRZ2_add, <- !IZR_pow2 in Hv by lia.
  assert (H1 : (IZR (2 ^ 52) <= IZR (Zpos m))%R) by (apply IZR_le; lia).
  assert (H2 : (1 <= IZR (2 ^ (e - k)))%R).
  { apply IZR_le. assert (0 < 2 ^ (e - k)) by (apply Z.pow_pos_nonneg; lia). lia. }
  assert (H3 : (0 < IZR (2 ^ k))%R).
  { apply IZR_lt. apply Z.pow_pos_nonneg; lia. }
  assert (H4 : (0 < IZR (2 ^ 52))%R) by (apply IZR_lt; reflexivity).
  assert (H5 : (IZR (2 ^ 52) * IZR (2 ^ k) <= IZR (Zpos m) * IZR (2 ^ k))%R)
    by (apply Rmult_le_compat_r; lra).
  assert (H6 : (IZR (Zpos m) * IZR (2 ^ k) * 1
                <= IZR (Zpos m) * IZR (2 ^ k) * IZR (2 ^ (e - k)))%R).
  { apply Rmult_le_compat_l; [|lra]. apply Rmult_le_pos; lra. }
  lra.
Qed.

Lemma lin_step_spec D K :
  1 <= D < 2 ^ 53 -> 1 <= K < 2 ^ 53 ->
  exists ms es,
    lin_step D K = S754_finite false ms es /\
    Zpos (digits2_pos ms) = 53 /\ -106 <= es <= 2 /\
    (Rabs (B2R (S754_finite false ms es) - IZR D / IZR K)
     <= u64 * (IZR D / IZR K))%R.
Proof.
  intros HD HK. unfold lin_step, F64.of_int, F64.sub, F64.div, F64.prec, F64.emax.
  destruct (of_int_spec D) as (mD & eD & ED & HdD & HeD & HvD); [lia|].
  destruct (of_int_spec K) as (mK & eK & EK & HdK & HeK & HvK); [lia|].
  rewrite ED, EK. change (binary_normalize 53 1024 0 0 false) with (S754_zero false).
  simpl SFsub.
  destruct (div_spec mD eD mK eK HdD HdK) as (ms & es & E & Hds & Hes & Herr); [lia|].
  exists ms, es. split; [exact E|]. split; [exact Hds|]. split; [lia|].
  rewrite HvD, HvK in Herr. exact Herr.
Qed.

Lemma sample_index_zero ms es :
  sample_index (S754_finite false ms es) 0 = 0.
Proof. reflexivity. Qed.

Lemma sample_index_spec ms es (i : nat) :
  Zpos (digits2_pos ms) = 53 -> -106 <= es <= 2 ->
  Z.of_nat i < 2 ^ 53 ->
  let sv := B2R (S754_finite false ms es) in
  (IZR (Z.of_nat i) * sv * (1 + u64) < IZR (2 ^ 61))%R ->
  exists yv : R,
    (IZR (sample_index (S754_finite false ms es) i) <= yv
       < IZR (sample_index (S754_finite false ms es) i) + 1)%R /\
    (Rabs (yv - IZR (Z.of_nat i) * sv) <= u64 * (IZR (Z.of_nat i) * sv))%R.
Proof.
  intros Hds Hes Hi sv Hlt.
  destruct i as [|i'].
  - exists 0%R. rewrite sample_index_zero. simpl Z.of_nat.
    rewrite Rmult_0_l, Rmult_0_r, Rminus_0_r, Rabs_R0. lra.
  - set (i := S i') in *.
    destruct (of_int_spec (Z.of_nat i)) as (mi & ei & Ei & Hdi & Hei & Hvi); [lia|].
    unfold sample_index, F64.of_int, F64.mul, F64.add, F64.prec, F64.emax. rewrite Ei.
    change (binary_normalize 53 1024 0 0 false) with (S754_zero false).
    destruct (mul_spec mi ei ms es Hdi Hds) as (mp & ep & E & Hdp & Hep & Herr); [lia|].
    rewrite E. simpl SFadd.
    rewrite Hvi in Herr. fold sv in Herr.
    exists (B2R (S754_finite false mp ep)). split; [|exact Herr].
    apply floor_int_spec; [exact Hdp|].
    assert (ep < 10); [|lia].
    apply (exponent_bound mp ep 10 Hdp); [lia|].
    apply Rabs_bound in Herr. change (2 ^ (52 + 10)) with (2 * 2 ^ 61).
    rewrite mult_IZR. 
    assert (0 < IZR (2 ^ 61))%R by (apply IZR_lt; reflexivity).
    lra.
Qed.

(** Real-number facts about the samples: [d] and [k] stand for
    [len - 1] and [max_points - 1], [sv] for the rounded step and [u] for the
    unit roundoff. *)
Local Open Scope R_scope.

Section Spacing.
Variables u d k sv : R.
Hypothesis Hu : 0 < u.
Hypothesis Hdu : d * u <= 1 / 8.
Hypothesis Hk : 1 <= k.
Hypothesis Hd : k < d.
Hypothesis Hsv : Rabs (sv - d / k) <= u * (d / k).

Lemma ku_small : k * u <= 1 / 8.
Proof. nra. Qed.

Lemma u_small : u <= 1 / 8.
Proof. nra. Qed.

Lemma q_pos : 1 < d / k.
Proof.
  apply Rmult_lt_reg_r with k; [lra|]. unfold Rdiv. rewrite Rmult_assoc, Rinv_l; lra.
Qed.

Lemma sv_bounds : d / k * (1 - u) <= sv <= d / k * (1 + u).
Proof. apply Rabs_bound in Hsv. lra. Qed.

Lemma sv_pos : 0 < sv.
Proof. pose proof sv_bounds. pose proof q_pos. pose proof u_small. nra. Qed.

Lemma sample_scaled i :
  0 <= i <= k - 1 -> 0 <= i * sv /\ i * sv * (1 + u) <= d.
Proof.
  intros Hi.
  pose proof sv_bounds as Hs. pose proof q_pos as Hq. pose proof u_small as Hus.
  pose proof sv_pos as Hp. pose proof ku_small as Hku.
  set (q := d / k) in *.
  assert (Ed : d = q * k) by (unfold q; field; lra).
  split; [nra|].
  assert (H2 : i * sv * (1 + u) <= (k - 1) * sv * (1 + u)).
  { apply Rmult_le_compat_r; [lra|]. apply Rmult_le_compat_r; lra. }
  assert (H3 : (k - 1) * sv * (1 + u) <= (k - 1) * (q * (1 + u)) * (1 + u)).
  { apply Rmult_le_compat_r; [lra|]. apply Rmult_le_compat_l; lra. }
  assert (H4 : (k - 1) * ((1 + u) * (1 + u)) <= k).
  { assert (u * u <= u) by nra. nra. }
  assert (H5 : q * ((k - 1) * ((1 + u) * (1 + u))) <= q * k)
    by (apply Rmult_le_compat_l; lra).
  rewrite Ed. lra.
Qed.

Lemma sample_le_stop i y :
  0 <= i <= k - 1 -> Rabs (y - i * sv) <= u * (i * sv) -> 0 <= y <= d.
Proof.
  intros Hi Hy. apply Rabs_bound in Hy.
  destruct (sample_scaled i Hi) as [H0 H1]. pose proof u_small as Hus.
  split; nra.
Qed.

Lemma sample_mono i j yi yj :
  0 <= i -> i + 1 <= j -> j <= k - 1 ->
  Rabs (yi - i * sv) <= u * (i * sv) ->
  Rabs (yj - j * sv) <= u * (j * sv) -> yi <= yj.
Proof.
  intros Hi Hij Hj Hyi Hyj.
  apply Rabs_bound in Hyi. apply Rabs_bound in Hyj.
  pose proof sv_pos as Hp. pose proof u_small as Hus. pose proof ku_small as Hku.
  assert (H1 : sv * (1 - u * (i + j)) <= yj - yi) by nra.
  assert (H2 : u * (i + j) <= 1 / 4) by nra.
  nra.
Qed.

Lemma sample_near i y :
  0 <= i <= k - 1 -> Rabs (y - i * sv) <= u * (i * sv) ->
  - (3 / 8) <= y - i * (d / k) <= 3 / 8.
Proof.
  intros Hi Hy. apply Rabs_bound in Hy.
  pose proof sv_bounds as Hs. pose proof q_pos as Hq. pose proof u_small as Hus.
  pose proof sv_pos as Hp.
  set (q := d / k) in *.
  assert (Ed : d = q * k) by (unfold q; field; lra).
  assert (Hiq : 0 <= i * q <= d).
  { split; [nra|]. rewrite Ed. rewrite Rmult_comm. apply Rmult_le_compat_l; lra. }
  assert (H0 : 0 <= i * sv) by nra.
  assert (H1 : i * q * (1 - u) <= i * sv <= i * q * (1 + u)) by nra.
  assert (H2 : i * sv * (1 - u) <= y <= i * sv * (1 + u)) by lra.
  assert (Huu : u * u <= u) by nra.
  assert (H3 : i * q * (1 - u) * (1 - u) <= y) by nra.
  assert (H4 : y <= i * q * (1 + u) * (1 + u)) by nra.
  assert (H5 : i * q * (2 * u + u * u) <= 3 / 8).
  { assert (i * q * (2 * u + u * u) <= d * (3 * u)); [|lra].
    apply Rmult_le_compat; nra. }
  split; nra.
Qed.

End Spacing.

Local Open Scope Z_scope.

Lemma set_last_app (l : list F64.float) x v : set_last (l ++ [x]) v = l ++ [v].
Proof.
  unfold set_last. destruct (l ++ [x]) eqn:E.
  - destruct l; discriminate.
  - rewrite <- E, removelast_last. reflexivity.
Qed.

Lemma floor_of_int D :
  0 < D < 2 ^ 53 -> F64.to_int64 (F64.floor (F64.of_int D)) = D.
Proof.
  intros HD. destruct (of_int_spec D HD) as (m & e & E & Hd & He & Hv).
  unfold F64.of_int, F64.prec, F64.emax. rewrite E.
  pose proof (floor_int_spec m e Hd ltac:(lia)) as [H1 H2].
  rewrite Hv in H1, H2. apply le_IZR in H1.
  rewrite <- plus_IZR in H2. apply lt_IZR in H2. lia.
Qed.

(** The list [linspace] returns, once its branches are resolved. *)
Lemma linspace_int_unfold D K :
  0 < D < 2 ^ 53 -> 1 <= K ->
  F64.eqb (lin_step D K) F64.zero = false ->
  linspace_int 0 D (K + 1)
  = Returned (map (sample_index (lin_step D K)) (seq 0 (Z.to_nat K)) ++ [D]).
Proof.
  intros HD HK Hnz. unfold linspace_int.
  replace (K + 1 <? 0) with false by (symmetry; apply Z.ltb_ge; lia).
  replace (K + 1 - 1) with K by lia.
  replace (0 <? K) with true by (symmetry; apply Z.ltb_lt; lia).
  replace (1 <? K + 1) with true by (symmetry; apply Z.ltb_lt; lia).
  fold (lin_step D K). rewrite Hnz.
  unfold arange. replace (Z.to_nat (K + 1)) with (S (Z.to_nat K)) by lia.
  rewrite seq_S, !map_app. cbn [map].
  rewrite set_last_app, !map_app. cbn [map].
  rewrite floor_of_int by assumption.
  f_equal. f_equal. rewrite !map_map. apply map_ext. intros i. reflexivity.
Qed.

Lemma u64_scaled D : D < 2 ^ 50 -> (IZR D * u64 <= 1 / 8)%R.
Proof.
  intros HD. pose proof u64_val as Hu. pose proof u64_pos as Hp.
  change (2 ^ 53) with (8 * 2 ^ 50) in Hu. rewrite mult_IZR in Hu.
  assert (IZR D <= IZR (2 ^ 50))%R by (apply IZR_le; lia).
  assert (IZR D * u64 <= IZR (2 ^ 50) * u64)%R by (apply Rmult_le_compat_r; lra).
  lra.
Qed.

(** What one sample index satisfies: it is the floor of a real [yv] that
    lies between 0 and [D] and within 3/8 of the exact position
    [i * D / K]. *)
Lemma sample_index_value D K (i : nat) :
  1 <= K < D -> D < 2 ^ 50 -> Z.of_nat i < K ->
  exists yv : R,
    (IZR (sample_index (lin_step D K) i) <= yv
       < IZR (sample_index (lin_step D K) i) + 1)%R /\
    (Rabs (yv - IZR (Z.of_nat i) * B2R (lin_step D K))
       <= u64 * (IZR (Z.of_nat i) * B2R (lin_step D K)))%R /\
    (0 <= yv <= IZR D)%R /\
    (- (3 / 8) <= yv - IZR (Z.of_nat i) * (IZR D / IZR K) <= 3 / 8)%R.
Proof.
  intros HK HD Hi.
  assert (H53 : 2 ^ 50 < 2 ^ 53) by reflexivity.
  destruct (lin_step_spec D K) as (ms & es & E & Hds & Hes & Herr); try lia.
  rewrite E.
  pose proof u64_pos as Hu. pose proof (u64_scaled D HD) as Hdu.
  assert (Hk1 : (1 <= IZR K)%R) by (apply IZR_le; lia).
  assert (Hkd : (IZR K < IZR D)%R) by (apply IZR_lt; lia).
  assert (Hir : (0 <= IZR (Z.of_nat i) <= IZR K - 1)%R).
  { split; [apply IZR_le; lia|]. rewrite <- minus_IZR. apply IZR_le. lia. }
  destruct (sample_scaled u64 (IZR D) (IZR K) _ Hu Hdu Hk1 Hkd Herr _ Hir) as [Hs0 Hs1].
  destruct (sample_index_spec ms es i Hds Hes) as (yv & Hfl & Hy); [lia| |].
  { assert (IZR D < IZR (2 ^ 61))%R by (apply IZR_lt; change (2 ^ 61) with (2 ^ 50 * 2 ^ 11); lia).
    lra. }
  exists yv. split; [exact Hfl|]. split; [exact Hy|]. split.
  - exact (sample_le_stop u64 (IZR D) (IZR K) _ Hu Hdu Hk1 Hkd Herr _ _ Hir Hy).
  - exact (sample_near u64 (IZR D) (IZR K) _ Hu Hdu Hk1 Hkd Herr _ _ Hir Hy).
Qed.

Lemma lin_step_nonzero D K :
  1 <= D < 2 ^ 53 -> 1 <= K < 2 ^ 53 -> F64.eqb (lin_step D K) F64.zero = false.
Proof.
  intros HD HK. destruct (lin_step_spec D K HD HK) as (ms & es & E & _).
  rewrite E. reflexivity.
Qed.

Lemma sample_index_range D K (i : nat) :
  1 <= K < D -> D < 2 ^ 50 -> Z.of_nat i < K ->
  0 <= sample_index (lin_step D K) i <= D.
Proof.
  intros HK HD Hi.
  destruct (sample_index_value D K i HK HD Hi) as (yv & [Hf1 Hf2] & _ & [Hy0 Hy1] & _).
  split.
  - assert (IZR (-1) < IZR (sample_index (lin_step D K) i))%R by (simpl; lra).
    apply lt_IZR in H. lia.
  - apply le_IZR. lra.
Qed.

Lemma sample_index_mono D K (i j : nat) :
  1 <= K < D -> D < 2 ^ 50 -> (i <= j)%nat -> Z.of_nat j < K ->
  sample_index (lin_step D K) i <= sample_index (lin_step D K) j.
Proof.
  intros HK HD Hij Hj.
  destruct (Nat.eq_dec i j) as [->|Hne]; [lia|].
  destruct (sample_index_value D K i HK HD ltac:(lia)) as (yi & [Hi1 Hi2] & Hyi & _).
  destruct (sample_index_value D K j HK HD Hj) as (yj & [Hj1 Hj2] & Hyj & _).
  assert (H53 : 2 ^ 50 < 2 ^ 53) by reflexivity.
  destruct (lin_step_spec D K) as (ms & es & E & Hds & Hes & Herr); try lia.
  rewrite E in *.
  pose proof u64_pos as Hu. pose proof (u64_scaled D HD) as Hdu.
  assert (Hk1 : (1 <= IZR K)%R) by (apply IZR_le; lia).
  assert (Hkd : (IZR K < IZR D)%R) by (apply IZR_lt; lia).
  assert (Hle : (yi <= yj)%R).
  { apply (sample_mono u64 (IZR D) (IZR K) _ Hu Hdu Hk1 Hkd Herr
             (IZR (Z.of_nat i)) (IZR (Z.of_nat j))); try assumption.
    - apply IZR_le. lia.
    - rewrite <- plus_IZR. apply IZR_le. lia.
    - rewrite <- minus_IZR. apply IZR_le. lia. }
  assert (IZR (sample_index (S754_finite false ms es) i)
          < IZR (sample_index (S754_finite false ms es) j + 1))%R
    by (rewrite plus_IZR; lra).
  apply lt_IZR in H. lia.
Qed.

(** Each index is within 11/8 of the exact, evenly spaced position
    [i * D / K]; the statement is cleared of fractions. *)
Lemma sample_index_spacing D K (i : nat) :
  1 <= K < D -> D < 2 ^ 50 -> Z.of_nat i < K ->
  - 11 * K < 8 * (K * sample_index (lin_step D K) i - Z.of_nat i * D) <= 3 * K.
Proof.
  intros HK HD Hi.
  destruct (sample_index_value D K i HK HD Hi) as (yv & [Hf1 Hf2] & _ & _ & [Hn1 Hn2]).
  set (x := sample_index (lin_step D K) i) in *.
  assert (Hk : (0 < IZR K)%R) by (apply IZR_lt; lia).
  assert (Eq : (IZR (Z.of_nat i) * (IZR D / IZR K) * IZR K = IZR (Z.of_nat i) * IZR D)%R)
    by (field; lra).
  set (q := (IZR (Z.of_nat i) * (IZR D / IZR K))%R) in *.
  split.
  - apply lt_IZR. rewrite !mult_IZR, minus_IZR, !mult_IZR. fold x.
    rewrite <- Eq. nra.
  - apply le_IZR. rewrite !mult_IZR, minus_IZR, !mult_IZR. fold x.
    rewrite <- Eq. nra.
Qed.

(** ** The sampler *)

Lemma traverse_getitem {A} (points : list A) (indices : list Z) :
  Forall (fun i => 0 <= i < Z.of_nat (List.length points)) indices ->
  exists out,
    traverse (getitem points) indices = Returned out /\ picks points indices out.
Proof.
  induction indices as [|i rest IH]; intros Hall.
  - exists []. split; [reflexivity|constructor].
  - inversion Hall as [|? ? Hi Hrest]; subst.
    destruct (IH Hrest) as (out & E & Hp).
    assert (Hnth : exists p, nth_error points (Z.to_nat i) = Some p).
    { destruct (nth_error points (Z.to_nat i)) eqn:En; [eauto|].
      apply nth_error_None in En. lia. }
    destruct Hnth as (p & En).
    exists (p :: out). split.
    + cbn [traverse]. unfold getitem at 1.
      replace (i <? 0) with false by (symmetry; apply Z.ltb_ge; lia).
      replace ((0 <=? i) && (i <? Z.of_nat (List.length points))) with true
        by (symmetry; apply andb_true_iff; split; [apply Z.leb_le|apply Z.ltb_lt]; lia).
      rewrite En. cbn. rewrite E. reflexivity.
    + constructor; [split; [lia|assumption]|assumption].
Qed.

Lemma picks_length {A} (points : list A) indices out :
  picks points indices out -> List.length out = List.length indices.
Proof. intros H. symmetry. exact (Forall2_length H). Qed.

Lemma picks_nth {A} (points : list A) indices out (n : nat) i :
  picks points indices out -> nth_error indices n = Some i ->
  nth_error out n = nth_error points (Z.to_nat i).
Proof.
  intros H. revert n. induction H as [|j p js ps [_ Hj] _ IH]; intros n Hn.
  - destruct n; discriminate.
  - destruct n as [|n]; cbn in *.
    + injection Hn as ->. now rewrite Hj.
    + now apply IH.
Qed.

(** The index list of [linspace], position by position. *)
Lemma nth_error_indices D K (n : nat) x :
  0 <= K ->
  nth_error (map (sample_index (lin_step D K)) (seq 0 (Z.to_nat K)) ++ [D]) n = Some x ->
  (Z.of_nat n < K /\ x = sample_index (lin_step D K) n) \/ (Z.of_nat n = K /\ x = D).
Proof.
  intros HK Hn.
  destruct (Nat.lt_ge_cases n (Z.to_nat K)) as [Hlt|Hge].
  - left. split; [lia|].
    rewrite nth_error_app1 in Hn by (rewrite length_map, length_seq; exact Hlt).
    rewrite nth_error_map, nth_error_seq in Hn.
    apply Nat.ltb_lt in Hlt. rewrite Hlt in Hn. cbn in Hn. congruence.
  - right. rewrite nth_error_app2 in Hn by (rewrite length_map, length_seq; exact Hge).
    rewrite length_map, length_seq in Hn.
    destruct (n - Z.to_nat K)%nat as [|k] eqn:Ek; cbn in Hn.
    + split; [lia|congruence].
    + destruct k; discriminate.
Qed.

Lemma get_sample_points_short {A} (points : list A) max_points :
  Z.of_nat (List.length points) <= max_points ->
  get_sample_points points max_points = Returned points.
Proof.
  intros H. unfold get_sample_points.
  now replace (Z.of_nat (List.length points) <=? max_points) with true
    by (symmetry; apply Z.leb_le; lia).
Qed.

Lemma get_sample_points_long {A} (points : list A) max_points :
  max_points < Z.of_nat (List.length points) ->
  get_sample_points points max_points
  = Py.bind (linspace_int 0 (Z.of_nat (List.length points) - 1) max_points)
            (traverse (getitem points)).
Proof.
  intros H. unfold get_sample_points.
  now replace (Z.of_nat (List.length points) <=? max_points) with false
    by (symmetry; apply Z.leb_gt; lia).
Qed.

Lemma linspace_int_one D : 0 < D < 2 ^ 53 -> linspace_int 0 D 1 = Returned [0].
Proof.
  intros HD. unfold linspace_int. cbn [Z.ltb Z.compare Z.sub Z.add Z.opp Z.pos_sub].
  unfold arange. cbn [Z.to_nat Pos.to_nat Pos.iter_op Nat.add seq map Z.of_nat].
  destruct (of_int_spec D HD) as (m & e & E & _).
  unfold F64.of_int, F64.prec, F64.emax, F64.sub, F64.mul, F64.add.
  rewrite E. reflexivity.
Qed.

Lemma linspace_int_zero D : linspace_int 0 D 0 = Returned [].
Proof. reflexivity. Qed.

Lemma linspace_int_negative D num : num < 0 -> linspace_int 0 D num = Raised ValueError.
Proof.
  intros H. unfold linspace_int.
  now replace (num <? 0) with true by (symmetry; apply Z.ltb_lt; lia).
Qed.

Section Sampled.
Context {A : Type}.
Variable points : list A.
Variable max_points : Z.
Let len := Z.of_nat (List.length points).
Hypothesis Hlen : len <= 2 ^ 50.
Hypothesis Hmax : 2 <= max_points < len.

Let D := len - 1.
Let K := max_points - 1.
Let indices := map (sample_index (lin_step D K)) (seq 0 (Z.to_nat K)) ++ [D].

Lemma sampled_linspace : linspace_int 0 D max_points = Returned indices.
Proof.
  replace max_points with (K + 1) by (unfold K; lia).
  assert (2 ^ 50 < 2 ^ 53) by reflexivity.
  apply linspace_int_unfold; unfold D, K; try lia.
  apply lin_step_nonzero; lia.
Qed.

Lemma sampled_length : Z.of_nat (List.length indices) = max_points.
Proof.
  unfold indices. rewrite length_app, length_map, length_seq. cbn [List.length].
  unfold K. lia.
Qed.

Lemma sampled_in_range n x :
  nth_error indices n = Some x -> 0 <= x <= D.
Proof.
  intros Hn. apply nth_error_indices in Hn; [|unfold K; lia].
  destruct Hn as [[Hlt ->]|[_ ->]].
  - apply sample_index_range; unfold D, K in *; lia.
  - unfold D. lia.
Qed.

Lemma sampled_first : nth_error indices 0 = Some 0.
Proof.
  unfold indices. destruct (Z.to_nat K) as [|k] eqn:Ek; [unfold K in Ek; lia|].
  cbn [seq map app nth_error]. f_equal.
  assert (2 ^ 50 < 2 ^ 53) by reflexivity.
  destruct (lin_step_spec D K) as (ms & es & E & _); unfold D, K; try lia.
  fold D K. rewrite E. reflexivity.
Qed.

Lemma sampled_last : nth_error indices (Z.to_nat K) = Some D.
Proof.
  unfold indices.
  rewrite nth_error_app2 by (rewrite length_map, length_seq; lia).
  rewrite length_map, length_seq, Nat.sub_diag. reflexivity.
Qed.

Lemma sampled_sorted i j x y :
  (i <= j)%nat -> nth_error indices i = Some x -> nth_error indices j = Some y ->
  x <= y.
Proof.
  intros Hij Hi Hj.
  pose proof (sampled_in_range _ _ Hi) as Hx.
  apply nth_error_indices in Hi; [|unfold K; lia].
  apply nth_error_indices in Hj; [|unfold K; lia].
  destruct Hj as [[Hj ->]|[Hj ->]]; [|lia].
  destruct Hi as [[Hi ->]|[Hi ->]]; [|lia].
  apply sample_index_mono; unfold D, K in *; lia.
Qed.

Lemma sampled_spacing n x :
  nth_error indices n = Some x ->
  - 11 * K < 8 * (K * x - Z.of_nat n * D) <= 3 * K.
Proof.
  intros Hn. apply nth_error_indices in Hn; [|unfold K; lia].
  destruct Hn as [[Hlt ->]|[Hn ->]].
  - apply sample_index_spacing; unfold D, K in *; lia.
  - rewrite Hn. unfold K. lia.
Qed.

Lemma sampled_output :
  exists out,
    get_sample_points points max_points = Returned out /\ picks points indices out.
Proof.
  rewrite get_sample_points_long by (fold len; lia).
  fold len D. rewrite sampled_linspace. cbn [Py.bind].
  apply traverse_getitem. apply Forall_forall. intros x Hin.
  apply In_nth_error in Hin. destruct Hin as (n & Hn).
  apply sampled_in_range in Hn. fold len. unfold D in Hn. lia.
Qed.
End Sampled.

(** The rounding of the binary64 product shows in the indices: on 31 points
    sampled down to 23, position 11 gets the index 14, where the exact
    quotient [11 * 30 / 22] is 15. *)
Example linspace_31_23 :
  linspace_int 0 30 23
  = Returned [0; 1; 2; 4; 5; 6; 8; 9; 10; 12; 13; 14; 16; 17; 19; 20; 21; 23; 24;
              25; 27; 28; 30] /\
  11 * 30 / 22 = 15.
Proof. split; reflexivity. Qed.

(** C2, as the code has it.  For a list of at most 2^50 points: when the
    list is no longer than [max_points] it is returned unchanged; otherwise,
    with [max_points >= 2], the sampler returns exactly [max_points] points,
    those at the indices [linspace] computes, which are non-decreasing, lie
    in [0, len - 1], stay within 11/8 of the evenly spaced positions
    [i * (len - 1) / (max_points - 1)], start at 0 and end at [len - 1], so
    the output starts with the first input point and ends with the last;
    with [max_points = 1] it returns the first point alone, with
    [max_points = 0] the empty list, and with a negative [max_points] it
    raises [ValueError].  Being a function, the sampler is deterministic. *)
Theorem get_sample_points_spec :
  forall (A : Type) (points : list A) (max_points : Z),
    Z.of_nat (List.length points) <= 2 ^ 50 ->
    let len := Z.of_nat (List.length points) in
    if len <=? max_points then
      get_sample_points points max_points = Returned points
    else if 2 <=? max_points then
      exists indices out,
        linspace_int 0 (len - 1) max_points = Returned indices /\
        get_sample_points points max_points = Returned out /\
        picks points indices out /\
        Z.of_nat (List.length out) = max_points /\
        nth_error indices 0 = Some 0 /\
        nth_error indices (Z.to_nat (max_points - 1)) = Some (len - 1) /\
        nth_error out 0 = nth_error points 0 /\
        nth_error out (List.length out - 1) = nth_error points (List.length points - 1) /\
        (forall i j x y,
            (i <= j)%nat -> nth_error indices i = Some x -> nth_error indices j = Some y ->
            x <= y) /\
        (forall i x, nth_error indices i = Some x -> 0 <= x <= len - 1) /\
        (forall i x,
            nth_error indices i = Some x ->
            - 11 * (max_points - 1)
            < 8 * ((max_points - 1) * x - Z.of_nat i * (len - 1))
            <= 3 * (max_points - 1))
    else if max_points =? 1 then
      get_sample_points points max_points = Returned (firstn 1 points)
    else if max_points =? 0 then
      get_sample_points points max_points = Returned []
    else
      get_sample_points points max_points = Raised ValueError.
Proof.
  intros A points max_points Hlen len.
  destruct (Z.leb_spec len max_points) as [Hshort|Hlong].
  - now apply get_sample_points_short.
  - destruct (Z.leb_spec 2 max_points) as [H2|H2].
    + assert (Hmax : 2 <= max_points < Z.of_nat (List.length points)) by (fold len; lia).
      destruct (sampled_output points max_points Hlen Hmax) as (out & Eout & Hp).
      pose proof (sampled_length points max_points Hmax) as Hl.
      pose proof (picks_length _ _ _ Hp) as Hlo.
      eexists. exists out.
      split; [exact (sampled_linspace points max_points Hlen Hmax)|].
      split; [exact Eout|]. split; [exact Hp|].
      split; [rewrite Hlo; exact Hl|].
      split; [exact (sampled_first points max_points Hlen Hmax)|].
      split; [exact (sampled_last points max_points)|].
      split.
      { rewrite (picks_nth _ _ _ 0%nat 0 Hp (sampled_first points max_points Hlen Hmax)).
        reflexivity. }
      split.
      { rewrite Hlo.
        replace (List.length _ - 1)%nat with (Z.to_nat (max_points - 1)) by lia.
        rewrite (picks_nth _ _ _ _ _ Hp (sampled_last points max_points)).
        f_equal. fold len. lia. }
      split; [exact (sampled_sorted points max_points Hlen Hmax)|].
      split; [exact (sampled_in_range points max_points Hlen Hmax)|].
      exact (sampled_spacing points max_points Hlen Hmax).
    + rewrite get_sample_points_long by (fold len; lia). fold len.
      assert (H53 : 2 ^ 50 < 2 ^ 53) by reflexivity.
      destruct (Z.eqb_spec max_points 1) as [->|N1].
      * destruct points as [|p ps]; [cbn in len; lia|].
        rewrite linspace_int_one by (fold len in Hlen; lia). reflexivity.
      * destruct (Z.eqb_spec max_points 0) as [->|N0]; [now rewrite linspace_int_zero|].
        rewrite linspace_int_negative by lia. reflexivity.
Qed.

Lemma get_sample_points_spec_witness :
  Z.of_nat (List.length [paris; reims; lyon]) <= 2 ^ 50 /\
  exists out,
    get_sample_points [paris; reims; lyon] 2 = Returned out /\
    Z.of_nat (List.length out) = 2 /\
    nth_error out 0 = Some paris /\
    nth_error out (List.length out - 1) = Some lyon.
Proof.
  split; [cbn; lia|].
  destruct (get_sample_points_spec point [paris; reims; lyon] 2 ltac:(cbn; lia))
    as (indices & out & _ & Eout & _ & Hlen & _ & _ & Hfirst & Hlast & _).
  exists out. repeat split; assumption.
Defined.

(** C2, counterexample.  With [max_count = 1] and two distinct points the
    sampler returns the first point alone: the output has the required
    length but does not hold the last input point. *)
Lemma sampler_misses_last_point :
  get_sample_points [paris; reims] 1 = Returned [paris] /\
  ~ sampler_contract [paris; reims] 1.
Proof.
  split; [reflexivity|].
  intros [_ H]. destruct (H ltac:(cbn; lia)) as (out & E & _ & _ & Hlast).
  assert (Eo : out = [paris]) by (cbv in E |- *; congruence).
  subst out. cbv in Hlast. discriminate.
Qed.

(** ** The speed resolver *)

Lemma parse_speed_refines raw : parse_speed raw = Returned (resolve_spec raw).
Proof.
  destruct raw as [s|]; [|reflexivity].
  unfold parse_speed, parse_speed_try, resolve_spec, dict_mem.
  destruct (dict_get SPEED_CODE_MAPPING s) as [v|] eqn:E;
    cbn [of_option Py.bind]; [reflexivity|].
  destruct (split s) as [|tok rest]; [reflexivity|].
  cbn [nth_error of_option Py.bind]. destruct (int_of_str tok); reflexivity.
Qed.

(** The keys of the code table are the four French codes. *)
Lemma speed_code_keys s v :
  dict_get SPEED_CODE_MAPPING s = Some v ->
  s = "FR:urban" \/ s = "FR:rural" \/ s = "FR:trunk" \/ s = "FR:motorway".
Proof.
  unfold SPEED_CODE_MAPPING. cbn [dict_get].
  repeat match goal with
    | |- context [String.eqb ?k s] => destruct (String.eqb_spec k s); [subst; tauto|]
    end.
  discriminate.
Qed.

(** No range check: a first token that [int] converts is returned as it
    is, whatever its sign or value. *)
Lemma parse_speed_integer_token s tok rest n :
  split s = tok :: rest -> int_of_str tok = Some n ->
  parse_speed (Some s) = Returned (Some n).
Proof.
  intros Hs Hn. rewrite parse_speed_refines. cbn [resolve_spec].
  destruct (dict_get SPEED_CODE_MAPPING s) as [v|] eqn:E.
  - apply speed_code_keys in E.
    destruct E as [ -> | [ -> | [ -> | -> ] ] ]; cbv in Hs; injection Hs as <- _; discriminate.
  - rewrite Hs, Hn. reflexivity.
Qed.

(** C3.  The resolver never raises: on every raw value, [None] included, it
    returns.  It applies its rules in the order of the specification (code
    table, then the first token read as an integer with no unit
    conversion, else unknown), the table holds the four French codes, and
    the listed examples resolve as stated. *)
Theorem resolver_total_and_ordered :
  (forall raw, exists r, parse_speed raw = Returned r) /\
  (forall raw, parse_speed raw = Returned (resolve_spec raw)) /\
  SPEED_CODE_MAPPING
    = [("FR:urban", 50); ("FR:rural", 80); ("FR:trunk", 110); ("FR:motorway", 130)] /\
  parse_speed (Some "FR:urban") = Returned (Some 50) /\
  parse_speed (Some "FR:rural") = Returned (Some 80) /\
  parse_speed (Some "FR:trunk") = Returned (Some 110) /\
  parse_speed (Some "FR:motorway") = Returned (Some 130) /\
  parse_speed (Some "90") = Returned (Some 90) /\
  parse_speed (Some "90 mph") = Returned (Some 90) /\
  parse_speed (Some "") = Returned None /\
  parse_speed None = Returned None /\
  parse_speed (Some "variable") = Returned None.
Proof.
  split; [intros raw; eexists; apply parse_speed_refines|].
  split; [exact parse_speed_refines|].
  repeat split; reflexivity.
Qed.

(** ** The speed lookup *)

Lemma maxspeed_values_total els :
  exists vs, maxspeed_values els = Returned vs /\ hd_error vs = first_tagged els.
Proof.
  induction els as [|el rest (vs & E & Hhd)].
  - exists []. split; reflexivity.
  - cbn [maxspeed_values first_tagged]. unfold dict_mem.
    destruct (dict_get (get_tags el) "maxspeed") as [v|] eqn:Ev.
    + unfold get_tags in Ev. destruct (el_tags el) as [t|]; [|discriminate].
      cbn [of_option Py.bind]. rewrite Ev. cbn [of_option Py.bind]. rewrite E.
      exists (v :: vs). split; reflexivity.
    + exists vs. split; assumption.
Qed.

Lemma query_max_speed_try_spec reply :
  exists r,
    try_except (query_max_speed_try reply) (fun _ => Returned None) = Returned r /\
    match r with Some v => v | None => None end = lookup_spec reply.
Proof.
  destruct reply as [|status body]; cbn [query_max_speed_try lookup_spec].
  - exists None. split; reflexivity.
  - destruct (status =? 200).
    + destruct body as [| |els]; cbn [Py.bind try_except].
      * exists None. split; reflexivity.
      * exists None. split; reflexivity.
      * destruct (maxspeed_values_total els) as (vs & E & Hhd).
        rewrite E. cbn [Py.bind try_except]. eexists. split; [reflexivity|exact Hhd].
    + exists None. split; [reflexivity|]. destruct body; reflexivity.
Qed.

Lemma query_max_speed_spec la lo w s :
  query_max_speed la lo w s
  = (Returned (lookup_spec (speed_service w (List.length (requests s)) (la, lo))),
     after_requests s [SpeedRequest (la, lo)]).
Proof.
  unfold query_max_speed, Run.bind, Run.send, Run.ask, Run.lift. cbn [requests files].
  destruct (query_max_speed_try_spec
              (speed_service w (List.length (requests s)) (la, lo))) as (r & E & Hr).
  rewrite E. rewrite <- Hr. destruct r; reflexivity.
Qed.

(** C8.  The lookup never raises: whatever the service does (no reply, a
    status other than 200, a body that is not JSON or has no elements, no
    element with the tag) it returns [None], and on a 200 answer with a
    tagged element it returns the [maxspeed] value of the first such
    element.  It sends exactly one request. *)
Theorem query_max_speed_never_raises :
  forall la lo w s,
    query_max_speed la lo w s
    = (Returned (lookup_spec (speed_service w (List.length (requests s)) (la, lo))),
       after_requests s [SpeedRequest (la, lo)]) /\
    lookup_spec NoReply = None /\
    (forall body, lookup_spec (Reply 500 body) = None) /\
    (forall status, lookup_spec (Reply status NotJson) = None) /\
    (forall status, lookup_spec (Reply status NoElements) = None) /\
    (forall els, lookup_spec (Reply 200 (Elements els)) = first_tagged els) /\
    (forall t v rest,
        first_tagged ({| el_tags := Some (("maxspeed", v) :: t) |} :: rest) = Some v) /\
    (forall rest, first_tagged ({| el_tags := None |} :: rest) = first_tagged rest) /\
    first_tagged [] = None.
Proof.
  intros la lo w s. split; [apply query_max_speed_spec|].
  repeat split; try reflexivity.
  intros body. destruct body; reflexivity.
Qed.

(** ** The collection loop *)

Lemma collect_loop_spec points limit : forall results w s,
  collect_loop points limit results w s
  = (Returned (results ++ observations w (List.length (requests s)) points),
     after_requests s (map (fun p => SpeedRequest p) points)).
Proof.
  induction points as [|[la lo] rest IH]; intros results w s.
  - cbn. unfold Run.ret, after_requests. rewrite !app_nil_r. destruct s; reflexivity.
  - cbn [collect_loop observations map]. unfold Run.bind at 1.
    rewrite query_max_speed_spec. unfold Run.bind at 1.
    set (v := lookup_spec _).
    assert (Hp : exists r, (match v with
                            | Some _ => Run.lift (parse_speed v)
                            | None => Run.ret None
                            end) w (after_requests s [SpeedRequest (la, lo)])
                           = (Returned r, after_requests s [SpeedRequest (la, lo)])).
    { destruct v as [x|].
      - unfold Run.lift. rewrite parse_speed_refines. eexists. reflexivity.
      - eexists. reflexivity. }
    destruct Hp as (r & ->).
    rewrite IH. unfold after_requests. cbn [requests files].
    rewrite length_app, Nat.add_1_r, <- !app_assoc. reflexivity.
Qed.

(** C9.  The collection loop returns one observation per sampled point, in
    the same order, each with that point's coordinates and the result of
    its lookup ([None] when the lookup failed); it never raises, and it
    sends one request per point. *)
Theorem collect_one_observation_per_point :
  forall points limit w s,
    collect_speed_data points limit w s
    = (Returned (observations w (List.length (requests s)) points),
       after_requests s (map (fun p => SpeedRequest p) points)) /\
    List.length (observations w (List.length (requests s)) points)
    = List.length points /\
    map (fun o => (lat o, lon o)) (observations w (List.length (requests s)) points)
    = points /\
    (forall i,
        nth_error (observations w (List.length (requests s)) points) i
        = option_map
            (fun p => {| lat := fst p; lon := snd p;
                         maxspeed := lookup_spec
                                       (speed_service w (List.length (requests s) + i) p) |})
            (nth_error points i)).
Proof.
  intros points limit w s. split; [apply (collect_loop_spec points limit [])|].
  generalize (List.length (requests s)) as n.
  induction points as [|[la lo] rest IH]; intros n.
  - repeat split; try reflexivity. intros [|i]; reflexivity.
  - destruct (IH (S n)) as (Hlen & Hmap & Hnth).
    cbn [observations List.length map lat lon]. repeat split.
    + now rewrite Hlen.
    + now rewrite Hmap.
    + intros [|i]; cbn [nth_error option_map fst snd].
      * now rewrite Nat.add_0_r.
      * rewrite Hnth. now rewrite Nat.add_succ_r.
Qed.

(** ** Segments *)

Lemma segment_speed_known s1 s2 :
  s1 <> Some 0 -> s2 <> Some 0 -> segment_speed s1 s2 = segment_speed_spec s1 s2.
Proof.
  intros H1 H2. unfold segment_speed, filter_true, segment_speed_spec.
  destruct s1 as [x|], s2 as [y|]; cbn [flat_map app].
  - destruct (Z.eqb_spec x 0) as [->|]; [congruence|].
    destruct (Z.eqb_spec y 0) as [->|]; [congruence|]. reflexivity.
  - destruct (Z.eqb_spec x 0) as [->|]; [congruence|]. reflexivity.
  - destruct (Z.eqb_spec y 0) as [->|]; [congruence|]. reflexivity.
  - reflexivity.
Qed.

Lemma draw_line_total limit a b g :
  exists g',
    draw_line limit a b g = Returned g' /\
    (List.length (fast_group g') + List.length (slow_group g')
     + List.length (unknown_group g')
     = S (List.length (fast_group g) + List.length (slow_group g)
          + List.length (unknown_group g)))%nat.
Proof.
  unfold draw_line. rewrite !parse_speed_refines. cbn [Py.bind].
  destruct (segment_speed _ _) as [v|].
  - destruct (limit <=? v); eexists; (split; [reflexivity|]);
      cbn [fast_group slow_group unknown_group]; rewrite length_app; cbn; lia.
  - eexists; split; [reflexivity|].
    cbn [fast_group slow_group unknown_group]. rewrite length_app. cbn. lia.
Qed.

(** Every pair of consecutive observations gets one line, in one of the
    three groups. *)
Lemma draw_lines_total limit results : forall g,
  exists g',
    draw_lines limit results g = Returned g' /\
    (List.length (fast_group g') + List.length (slow_group g')
     + List.length (unknown_group g')
     = List.length (fast_group g) + List.length (slow_group g)
       + List.length (unknown_group g) + (List.length results - 1))%nat.
Proof.
  induction results as [|a rest IH]; intros g.
  - exists g. split; [reflexivity|cbn; lia].
  - destruct rest as [|b rest'].
    + exists g. split; [reflexivity|cbn; lia].
    + destruct (draw_line_total limit a b g) as (g1 & E1 & H1).
      destruct (IH g1) as (g2 & E2 & H2).
      exists g2. split.
      * change (draw_lines limit (a :: b :: rest') g)
          with (Py.bind (draw_line limit a b g) (draw_lines limit (b :: rest'))).
        rewrite E1. exact E2.
      * rewrite H2, H1. cbn [List.length]. lia.
Qed.

(** C1.  The line loop drops a resolved speed of 0: between a point that
    resolves to 0 and a point of unknown speed the segment speed is unknown
    and the line goes to the "unknown speed" group in gray, whereas the
    specification gives the segment the speed 0 and the "< threshold"
    layer.  The marker loop, on the same observation, treats 0 as known
    (blue). *)
Theorem segment_drops_zero_speed :
  parse_speed (Some "0") = Returned (Some 0) /\
  segment_speed (Some 0) None = None /\
  segment_speed_spec (Some 0) None = Some 0 /\
  draw_lines 110 [observed paris (Some "0"); observed reims None] no_lines
  = Returned {| fast_group := [];
                slow_group := [];
                unknown_group :=
                  [ {| pl_from := paris; pl_to := reims; pl_color := gray;
                       pl_weight := 4;
                       pl_popup := Text "Maxspeed: Unknown speed" |} ] |} /\
  mk_color (point_marker 110 (observed paris (Some "0"))) = blue.
Proof. repeat split; reflexivity. Qed.

(** C10.  The resolver does no range check, yet 0 does not reach the
    segment classification like other values: "0" and "-30" both resolve to
    known speeds and both colour their marker by the threshold, but next to
    an unknown point -30 gives a "< threshold" line while 0 gives an
    "unknown speed" line. *)
Theorem zero_speed_not_classified :
  parse_speed (Some "0") = Returned (Some 0) /\
  parse_speed (Some "-30") = Returned (Some (-30)) /\
  mk_color (point_marker 110 (observed paris (Some "0"))) = blue /\
  mk_color (point_marker 110 (observed paris (Some "-30"))) = blue /\
  (exists line,
      draw_lines 110 [observed paris (Some "-30"); observed reims None] no_lines
      = Returned {| fast_group := []; slow_group := [line]; unknown_group := [] |} /\
      pl_popup line = Text "Maxspeed: -30 km/h") /\
  (exists line,
      draw_lines 110 [observed paris (Some "0"); observed reims None] no_lines
      = Returned {| fast_group := []; slow_group := []; unknown_group := [line] |} /\
      pl_popup line = Text "Maxspeed: Unknown speed").
Proof.
  repeat split; try reflexivity; eexists; split; reflexivity.
Qed.

(** ** The fuel-station locator *)

Lemma eval_fuel_query db bbox :
  eval_query db (fuel_query bbox) = keyed_fuel_nodes db bbox.
Proof.
  unfold eval_query, keyed_fuel_nodes. apply filter_ext. intros n.
  unfold fuel_query, matches_statement. cbn [existsb forallb st_filters st_bbox].
  cbn [matches_filter].
  destruct (match dict_get (node_tags n) "amenity" with
            | Some v' => (v' =? "fuel")%string
            | None => false
            end), (dict_mem (node_tags n) "fuel:octane_98"),
    (dict_mem (node_tags n) "fuel:octane_95"), (in_bbox bbox n); reflexivity.
Qed.

Lemma get_fuel_stations_spec bbox w s :
  get_fuel_stations bbox w s
  = (match fuel_service w (List.length (requests s)) with
     | Some db => Returned (map station_of_node (keyed_fuel_nodes db bbox))
     | None => Raised OverpassException
     end,
     after_requests s [FuelRequest (fuel_query bbox)]).
Proof.
  unfold get_fuel_stations, Run.bind, Run.send, Run.ask. cbn [requests files].
  destruct (fuel_service w (List.length (requests s))) as [db|].
  - unfold Run.ret. now rewrite eval_fuel_query.
  - reflexivity.
Qed.

(** C6, as the code has it.  When the query succeeds the locator returns
    one station per node of the database that is a fuel amenity in the box
    and carries one of the two grade keys, whatever the value of that key;
    each station has its grade flags true exactly when the tag is [yes],
    and its name or the label "Station-service"; the marker of a station is
    green exactly when both flags are true and orange otherwise. *)
Theorem fuel_stations_by_key :
  forall bbox w s,
    get_fuel_stations bbox w s
    = (match fuel_service w (List.length (requests s)) with
       | Some db => Returned (map station_of_node (keyed_fuel_nodes db bbox))
       | None => Raised OverpassException
       end,
       after_requests s [FuelRequest (fuel_query bbox)]) /\
    (forall node,
        sp95 (station_of_node node) = tag_is_yes (node_tags node) "fuel:octane_95" /\
        sp98 (station_of_node node) = tag_is_yes (node_tags node) "fuel:octane_98" /\
        stn_name (station_of_node node)
        = match dict_get (node_tags node) "name" with
          | Some name => name
          | None => "Station-service"
          end) /\
    (forall st,
        mk_color (station_marker st)
        = if sp95 st && sp98 st then green else orange).
Proof.
  intros bbox w s. split; [apply get_fuel_stations_spec|].
  split; [intros node; repeat split|intros st; reflexivity].
Qed.

(** C6, counterexample.  A fuel amenity tagged [fuel:octane_95=no] has no
    grade set to an affirmative value, yet the locator returns a station
    for it. *)
Lemma fuel_station_without_grade :
  affirmative_fuel_nodes [dry_station] whole_earth = [] /\
  get_fuel_stations whole_earth (small_world true [dry_station]) initial
  = (Returned [ {| stn_lat := F64.of_int 48; stn_lon := F64.of_int 3;
                   sp95 := false; sp98 := false;
                   stn_name := "Station-service" |} ],
     after_requests initial [FuelRequest (fuel_query whole_earth)]) /\
  fst (get_fuel_stations whole_earth (small_world true [dry_station]) initial)
  <> Returned (map station_of_node (affirmative_fuel_nodes [dry_station] whole_earth)).
Proof. repeat split; try reflexivity. discriminate. Qed.

(** ** The map builder *)

Lemma get_bounding_box_nonempty p ps :
  exists bbox, get_bounding_box (p :: ps) = Returned bbox.
Proof. eexists. reflexivity. Qed.

Lemma add_fuel_stations_spec stations : forall m,
  add_fuel_stations_to_map m stations
  = {| map_location := map_location m;
       map_zoom_start := map_zoom_start m;
       map_children :=
         map_children m ++ map (fun st => MarkerChild (station_marker st)) stations;
       root_html := root_html m |}.
Proof.
  unfold add_fuel_stations_to_map.
  induction stations as [|st rest IH]; intros m; cbn [fold_left map].
  - rewrite app_nil_r. destruct m; reflexivity.
  - rewrite IH. cbn [add_child map_children map_location map_zoom_start root_html].
    now rewrite <- app_assoc.
Qed.

(** What [build_speed_map] does, stage by stage. *)
Lemma build_speed_map_spec points results limit w s :
  build_speed_map points results limit w s
  = match points with
    | [] => (Raised IndexError, s)
    | p :: ps =>
        match get_bounding_box (p :: ps) with
        | Raised e => (Raised e, s)
        | Returned bbox =>
            match fuel_service w (List.length (requests s)) with
            | None =>
                (Raised OverpassException,
                 after_requests s [FuelRequest (fuel_query bbox)])
            | Some db =>
                match draw_lines limit results no_lines with
                | Raised e =>
                    (Raised e, after_requests s [FuelRequest (fuel_query bbox)])
                | Returned g =>
                    (Returned
                       {| map_location := p;
                          map_zoom_start := 11;
                          map_children :=
                            TileLayer
                            :: map (fun st => MarkerChild (station_marker st))
                                   (map station_of_node (keyed_fuel_nodes db bbox))
                            ++ [ GroupChild {| fg_name := SpeedAtLeast limit;
                                               fg_show := true;
                                               fg_lines := fast_group g |};
                                 GroupChild {| fg_name := SpeedBelow limit;
                                               fg_show := true;
                                               fg_lines := slow_group g |};
                                 GroupChild {| fg_name := UnknownSpeed;
                                               fg_show := true;
                                               fg_lines := unknown_group g |};
                                 LayerControl false ];
                          root_html := [Legend limit] |},
                     after_requests s [FuelRequest (fuel_query bbox)])
                end
            end
        end
    end.
Proof.
  destruct points as [|p ps]; [reflexivity|].
  unfold build_speed_map, Run.bind at 1, Run.lift at 1.
  change (getitem (p :: ps) 0) with (Returned p).
  unfold Run.bind at 1, Run.lift at 1.
  destruct (get_bounding_box (p :: ps)) as [bbox|e]; [|reflexivity].
  unfold Run.bind at 1. rewrite get_fuel_stations_spec.
  destruct (fuel_service w (List.length (requests s))) as [db|]; [|reflexivity].
  unfold Run.bind at 1, Run.lift at 1.
  destruct (draw_lines limit results no_lines) as [g|e]; [|reflexivity].
  unfold Run.ret. f_equal. f_equal.
  rewrite add_fuel_stations_spec. unfold add_child, add_html, new_map.
  cbn [map_children map_location map_zoom_start root_html app].
  rewrite <- !app_assoc. reflexivity.
Qed.

Lemma point_marker_spec limit o :
  point_marker limit o
  = {| mk_location := (lat o, lon o);
       mk_popup := Text (marker_label_spec (resolve_spec (maxspeed o)));
       mk_color := marker_color_spec limit (resolve_spec (maxspeed o)) |}.
Proof.
  unfold point_marker. rewrite parse_speed_refines.
  destruct (resolve_spec (maxspeed o)) as [v|]; [|reflexivity].
  cbn [marker_color_spec marker_label_spec]. rewrite Z.leb_antisym.
  destruct (v <? limit); reflexivity.
Qed.

Lemma station_markers_only stations :
  forallb (fun c => negb (is_point_marker c))
          (map (fun st => MarkerChild (station_marker st)) stations) = true.
Proof. induction stations as [|st rest IH]; [reflexivity|exact IH]. Qed.

(** C5, as the code has it.  The marker loop builds one marker per
    observation, in order, at the observation's coordinates, red when the
    resolved speed reaches the threshold, blue when it is below, gray when
    it is unknown, with the popup "Maxspeed: <speed> km/h" or
    "Maxspeed: Unknown"; the markers go to the cluster, which is not added
    to the map: no child of the map that is returned is such a marker. *)
Theorem point_markers_built_not_rendered :
  forall limit results points w s,
    cluster_markers limit results
    = map (fun o =>
             {| mk_location := (lat o, lon o);
                mk_popup := Text (marker_label_spec (resolve_spec (maxspeed o)));
                mk_color := marker_color_spec limit (resolve_spec (maxspeed o)) |})
          results /\
    List.length (cluster_markers limit results) = List.length results /\
    match build_speed_map points results limit w s with
    | (Returned m, _) =>
        forallb (fun c => negb (is_point_marker c)) (map_children m) = true
    | (Raised _, _) => True
    end.
Proof.
  intros limit results points w s. split; [|split].
  - unfold cluster_markers. apply map_ext. intros o. apply point_marker_spec.
  - unfold cluster_markers. apply length_map.
  - rewrite build_speed_map_spec.
    destruct points as [|p ps]; [exact I|].
    destruct (get_bounding_box (p :: ps)) as [bbox|e]; [|exact I].
    destruct (fuel_service w (List.length (requests s))) as [db|]; [|exact I].
    destruct (draw_lines limit results no_lines) as [g|e]; [|exact I].
    cbn [map_children forallb is_point_marker negb andb].
    rewrite forallb_app, station_markers_only. reflexivity.
Qed.

(** C5, counterexample.  A run over two sampled points returns a map with
    no point marker among its children, while the cluster holds two. *)
Lemma point_markers_missing :
  List.length (cluster_markers 110 [observed paris None; observed reims None]) = 2%nat /\
  match build_speed_map [paris; reims] [observed paris None; observed reims None] 110
                        (small_world true []) initial with
  | (Returned m, _) =>
      filter is_point_marker (map_children m) = [] /\
      ~ In (MarkerChild (point_marker 110 (observed paris None))) (map_children m)
  | (Raised _, _) => False
  end.
Proof.
  split; [reflexivity|]. vm_compute. split; [reflexivity|].
  intros H. repeat (destruct H as [H|H]; [discriminate|]). exact H.
Qed.

(** ** [main] *)

Lemma after_requests_nil s : after_requests s [] = s.
Proof. unfold after_requests. rewrite app_nil_r. destruct s; reflexivity. Qed.

Lemma main_spec args w s :
  main args w s
  = match file_system w (file args) with
    | Unreadable => (Raised OSError, s)
    | Undecodable => (Raised UnicodeDecodeError, s)
    | Malformed => (Raised GPXException, s)
    | Track g =>
        match get_sample_points (List.concat (List.concat g)) (max_points args) with
        | Raised e => (Raised e, s)
        | Returned sampled =>
            match build_speed_map sampled
                    (observations w (List.length (requests s)) sampled)
                    (limit_speed args) w
                    (after_requests s (map (fun p => SpeedRequest p) sampled)) with
            | (Raised e, s') => (Raised e, s')
            | (Returned m, s') =>
                (Returned tt,
                 {| requests := requests s';
                    files := files s' ++ [("speed_map_" ++ clock w ++ ".html", m)%string] |})
            end
        end
    end.
Proof.
  unfold main, Run.bind at 1, load_gpx_points, Run.bind at 1, Run.ask at 1.
  destruct (file_system w (file args)) as [| | |g]; try reflexivity.
  unfold Run.ret at 1. unfold Run.bind at 1, Run.lift at 1.
  destruct (get_sample_points _ _) as [sampled|e]; [|reflexivity].
  unfold Run.bind at 1, collect_speed_data. rewrite collect_loop_spec. cbn [app].
  unfold Run.bind at 1.
  destruct (build_speed_map _ _ _ _ _) as [[m|e] s']; reflexivity.
Qed.

Lemma build_speed_map_files points results limit w s :
  files (snd (build_speed_map points results limit w s)) = files s.
Proof.
  rewrite build_speed_map_spec.
  destruct points as [|p ps]; [reflexivity|].
  destruct (get_bounding_box (p :: ps)) as [bbox|e]; [|reflexivity].
  destruct (fuel_service w (List.length (requests s))) as [db|]; [|reflexivity].
  destruct (draw_lines limit results no_lines) as [g|e]; reflexivity.
Qed.

(** The run is atomic: the file is written exactly when [main] returns. *)
Lemma main_atomic args w s :
  match main args w s with
  | (Raised _, s') => files s' = files s
  | (Returned _, s') =>
      exists m, files s' = files s ++ [("speed_map_" ++ clock w ++ ".html", m)%string]
  end.
Proof.
  rewrite main_spec.
  destruct (file_system w (file args)) as [| | |g]; try reflexivity.
  destruct (get_sample_points _ _) as [sampled|e]; [|reflexivity].
  pose proof (build_speed_map_files sampled
                (observations w (List.length (requests s)) sampled)
                (limit_speed args) w
                (after_requests s (map (fun p => SpeedRequest p) sampled))) as Hf.
  destruct (build_speed_map _ _ _ _ _) as [[m|e] s']; cbn [snd files] in *.
  - exists m. now rewrite Hf.
  - exact Hf.
Qed.

(** C7.  When the track gives at least one sampled point and the fuel
    query fails, the failure is not caught: [main] raises it and no file
    has been written.  More generally the run is atomic: whenever [main]
    raises, the files are as before, and when it returns exactly one file
    has been added. *)
Theorem fuel_failure_aborts_run :
  forall args w g p ps,
    file_system w (file args) = Track g ->
    get_sample_points (List.concat (List.concat g)) (max_points args)
    = Returned (p :: ps) ->
    fuel_service w (List.length (p :: ps)) = None ->
    (exists s,
        main args w initial = (Raised OverpassException, s) /\
        files s = [] /\
        exists bbox,
          requests s = map (fun q => SpeedRequest q) (p :: ps)
                       ++ [FuelRequest (fuel_query bbox)]) /\
    (forall args' w' s0,
        match main args' w' s0 with
        | (Raised _, s') => files s' = files s0
        | (Returned _, s') =>
            exists m,
              files s' = files s0 ++ [("speed_map_" ++ clock w' ++ ".html", m)%string]
        end).
Proof.
  intros args w g p ps Hfile Hsample Hfuel. split; [|intros; apply main_atomic].
  rewrite main_spec, Hfile, Hsample, build_speed_map_spec.
  destruct (get_bounding_box_nonempty p ps) as (bbox & ->).
  cbn [requests initial after_requests app]. rewrite length_map, Hfuel.
  eexists. split; [reflexivity|]. split; [reflexivity|].
  exists bbox. reflexivity.
Qed.

Lemma fuel_failure_aborts_run_witness :
  file_system (small_world false []) (file default_arguments)
  = Track [[[paris; reims]]] /\
  get_sample_points (List.concat (List.concat [[[paris; reims]]]))
                    (max_points default_arguments)
  = Returned [paris; reims] /\
  fuel_service (small_world false []) (List.length [paris; reims]) = None /\
  exists s,
    main default_arguments (small_world false []) initial
    = (Raised OverpassException, s) /\ files s = [].
Proof.
  repeat (split; [reflexivity|]).
  destruct (fuel_failure_aborts_run default_arguments (small_world false [])
              [[[paris; reims]]] paris [reims] eq_refl eq_refl eq_refl)
    as [(s & Hmain & Hfiles & _) _].
  exists s. split; assumption.
Defined.

(** C4, as the code has it.  A track file that parses to no point is
    loaded without error: the loader returns the empty list.  [main] then
    raises with the state untouched, so no request has been sent and no
    file written.  The error is the [IndexError] of [points[0]] in the map
    builder, or the [ValueError] of the sampler when [max_points] is
    negative. *)
Theorem empty_track_aborts_before_network :
  forall args w g s,
    file_system w (file args) = Track g ->
    List.concat (List.concat g) = [] ->
    load_gpx_points (file args) w s = (Returned [], s) /\
    main args w s
    = (Raised (if max_points args <? 0 then ValueError else IndexError), s).
Proof.
  intros args w g s Hfile Hempty. split.
  { unfold load_gpx_points, Run.bind, Run.ask. rewrite Hfile, Hempty. reflexivity. }
  rewrite main_spec, Hfile, Hempty.
  unfold get_sample_points. cbn [List.length Z.of_nat].
  destruct (Z.ltb_spec (max_points args) 0) as [Hneg|Hpos].
  - replace (0 <=? max_points args) with false by (symmetry; apply Z.leb_gt; lia).
    rewrite linspace_int_negative by assumption. reflexivity.
  - replace (0 <=? max_points args) with true by (symmetry; apply Z.leb_le; lia).
    rewrite build_speed_map_spec. cbn [map]. now rewrite after_requests_nil.
Qed.

Lemma empty_track_aborts_before_network_witness :
  file_system empty_track_world (file default_arguments) = Track [[[]]; []] /\
  List.concat (List.concat [[[]]; []]) = @nil point /\
  load_gpx_points (file default_arguments) empty_track_world initial
  = (Returned [], initial) /\
  main default_arguments empty_track_world initial = (Raised IndexError, initial).
Proof.
  split; [reflexivity|]. split; [reflexivity|].
  exact (empty_track_aborts_before_network default_arguments empty_track_world
           [[[]]; []] initial eq_refl eq_refl).
Defined.

(** C4, counterexample.  On a track file without points the abort is not
    one of the loader: the loader returns normally, and the error [main]
    raises, [IndexError], is none of the errors the loader can raise. *)
Lemma empty_track_is_no_load_error :
  load_gpx_points (file default_arguments) empty_track_world initial
  = (Returned [], initial) /\
  main default_arguments empty_track_world initial = (Raised IndexError, initial) /\
  load_error IndexError = false /\
  ~ load_error_abort default_arguments empty_track_world.
Proof.
  assert (E : main default_arguments empty_track_world initial
              = (Raised IndexError, initial)) by reflexivity.
  repeat split; try reflexivity.
  intros (e & He & Hload). rewrite E in He. injection He as <-. discriminate.
Qed.

(** * Further properties *)

(** ** The line loop *)

Lemma segment_speed_line s1 s2 :
  segment_speed s1 s2
  = segment_speed_spec
      (match s1 with Some v => if v =? 0 then None else Some v | None => None end)
      (match s2 with Some v => if v =? 0 then None else Some v | None => None end).
Proof.
  unfold segment_speed, filter_true.
  destruct s1 as [x|], s2 as [y|]; cbn [flat_map app];
    try destruct (x =? 0); try destruct (y =? 0); reflexivity.
Qed.

Lemma consecutive_cons {A} (x a b : A) l :
  consecutive a b l -> consecutive a b (x :: l).
Proof. intros (pre & post & ->). now exists (x :: pre), post. Qed.

Lemma consecutive_head {A} (a b : A) l : consecutive a b (a :: b :: l).
Proof. now exists [], l. Qed.

(** One pass of the line loop adds one line to the group its segment speed
    selects. *)
Lemma draw_line_spec limit a b g :
  draw_line limit a b g
  = Returned
      match segment_speed_spec (line_speed a) (line_speed b) with
      | None =>
          {| fast_group := fast_group g;
             slow_group := slow_group g;
             unknown_group := unknown_group g ++ [line_between a b gray "Unknown speed"] |}
      | Some v =>
          if limit <=? v then
            {| fast_group := fast_group g
                             ++ [line_between a b red (str_of_int v ++ " km/h")];
               slow_group := slow_group g;
               unknown_group := unknown_group g |}
          else
            {| fast_group := fast_group g;
               slow_group := slow_group g
                             ++ [line_between a b blue (str_of_int v ++ " km/h")];
               unknown_group := unknown_group g |}
      end.
Proof.
  unfold draw_line. rewrite !parse_speed_refines. cbn [Py.bind].
  rewrite segment_speed_line. fold (line_speed a) (line_speed b).
  destruct (segment_speed_spec (line_speed a) (line_speed b)) as [v|]; [|reflexivity].
  destruct (limit <=? v); reflexivity.
Qed.

Lemma draw_lines_classified limit all : forall results g,
  (forall a b, consecutive a b results -> consecutive a b all) ->
  Forall (fast_line limit all) (fast_group g) ->
  Forall (slow_line limit all) (slow_group g) ->
  Forall (unknown_line all) (unknown_group g) ->
  exists g',
    draw_lines limit results g = Returned g' /\
    Forall (fast_line limit all) (fast_group g') /\
    Forall (slow_line limit all) (slow_group g') /\
    Forall (unknown_line all) (unknown_group g').
Proof.
  induction results as [|a rest IH]; intros g Hsub Hf Hs Hu.
  - exists g. repeat split; assumption.
  - destruct rest as [|b rest'].
    + exists g. repeat split; assumption.
    + change (draw_lines limit (a :: b :: rest') g)
        with (Py.bind (draw_line limit a b g) (draw_lines limit (b :: rest'))).
      rewrite draw_line_spec. cbn [Py.bind].
      assert (Hab : consecutive a b all) by (apply Hsub, consecutive_head).
      apply IH.
      * intros x y Hxy. apply Hsub. now apply consecutive_cons.
      * destruct (segment_speed_spec (line_speed a) (line_speed b)) as [v|] eqn:Ev;
          [destruct (Z.leb_spec limit v)|]; cbn [fast_group]; try assumption.
        apply Forall_app. split; [assumption|]. constructor; [|constructor].
        exists a, b, v. repeat split; assumption.
      * destruct (segment_speed_spec (line_speed a) (line_speed b)) as [v|] eqn:Ev;
          [destruct (Z.leb_spec limit v)|]; cbn [slow_group]; try assumption.
        apply Forall_app. split; [assumption|]. constructor; [|constructor].
        exists a, b, v. repeat split; assumption.
      * destruct (segment_speed_spec (line_speed a) (line_speed b)) as [v|] eqn:Ev;
          [destruct (Z.leb_spec limit v)|]; cbn [unknown_group]; try assumption.
        apply Forall_app. split; [assumption|]. constructor; [|constructor].
        exists a, b. repeat split; assumption.
Qed.

Lemma adjacent_cons {A} (a b : A) rest :
  adjacent (a :: b :: rest) = (a, b) :: adjacent (b :: rest).
Proof. reflexivity. Qed.

Lemma adjacent_map {A B} (f : A -> B) l :
  adjacent (map f l) = map (fun ab => (f (fst ab), f (snd ab))) (adjacent l).
Proof.
  induction l as [|a rest IH]; [reflexivity|].
  destruct rest as [|b rest']; [reflexivity|].
  cbn [map] in *. rewrite !adjacent_cons, IH. reflexivity.
Qed.

Lemma adjacent_length {A} (l : list A) :
  List.length (adjacent l) = (List.length l - 1)%nat.
Proof.
  induction l as [|a rest IH]; [reflexivity|].
  destruct rest as [|b rest']; [reflexivity|].
  rewrite adjacent_cons. cbn [List.length] in *. rewrite IH. lia.
Qed.

Lemma segment_line_endpoints limit ab :
  endpoints (segment_line limit ab) = (location (fst ab), location (snd ab)).
Proof.
  unfold segment_line.
  destruct (segment_speed_spec _ _) as [v|]; reflexivity.
Qed.

Lemma segment_lines_endpoints limit results :
  map endpoints (segment_lines limit results) = adjacent (map location results).
Proof.
  unfold segment_lines. rewrite map_map, adjacent_map.
  apply map_ext. intros ab. apply segment_line_endpoints.
Qed.

(** The line loop, started with the groups [g], appends to each group the
    lines of its colour among the lines of the consecutive pairs. *)
Lemma draw_lines_from limit results : forall g,
  draw_lines limit results g
  = Returned
      {| fast_group := fast_group g ++ lines_of_color red (segment_lines limit results);
         slow_group := slow_group g ++ lines_of_color blue (segment_lines limit results);
         unknown_group :=
           unknown_group g ++ lines_of_color gray (segment_lines limit results) |}.
Proof.
  induction results as [|a rest IH]; intros g.
  - cbn. rewrite !app_nil_r. destruct g; reflexivity.
  - destruct rest as [|b rest'].
    + cbn. rewrite !app_nil_r. destruct g; reflexivity.
    + change (draw_lines limit (a :: b :: rest') g)
        with (Py.bind (draw_line limit a b g) (draw_lines limit (b :: rest'))).
      rewrite draw_line_spec. cbn [Py.bind]. rewrite IH.
      unfold segment_lines. rewrite adjacent_cons. cbn [map].
      unfold lines_of_color. cbn [filter].
      assert (EL : segment_line limit (a, b)
                   = match segment_speed_spec (line_speed a) (line_speed b) with
                     | Some v =>
                         line_between a b (if limit <=? v then red else blue)
                                      (str_of_int v ++ " km/h")
                     | None => line_between a b gray "Unknown speed"
                     end) by reflexivity.
      rewrite EL. clear EL.
      destruct (segment_speed_spec (line_speed a) (line_speed b)) as [v|];
        [destruct (limit <=? v)|];
        cbn [fast_group slow_group unknown_group line_between pl_color color_eqb];
        rewrite <- ?app_assoc; reflexivity.
Qed.

Lemma draw_lines_grouped limit results :
  draw_lines limit results no_lines = Returned (grouped (segment_lines limit results)).
Proof. rewrite draw_lines_from. reflexivity. Qed.

Lemma grouped_count limit results :
  (List.length (lines_of_color red (segment_lines limit results))
   + List.length (lines_of_color blue (segment_lines limit results))
   + List.length (lines_of_color gray (segment_lines limit results))
   = List.length results - 1)%nat.
Proof.
  destruct (draw_lines_total limit results no_lines) as (g & E & H).
  rewrite draw_lines_grouped in E. injection E as <-.
  cbn [grouped fast_group slow_group unknown_group no_lines List.length] in H.
  exact H.
Qed.

(** X1.  The line loop never raises and draws exactly the lines of the
    pairs of consecutive observations.  Let the line of the pair
    [(results[i], results[i+1])] be red or blue by its segment speed and
    gray without one; the three groups then hold, each in drawing order,
    the red, the blue and the gray ones of these lines and nothing else.
    The line of the pair number [i] joins the location of [results[i]] to
    that of [results[i+1]]; there are [len(results) - 1] lines, and each
    is in one group. *)
Theorem one_line_per_consecutive_pair :
  forall limit results,
    draw_lines limit results no_lines
    = Returned {| fast_group := lines_of_color red (segment_lines limit results);
                  slow_group := lines_of_color blue (segment_lines limit results);
                  unknown_group := lines_of_color gray (segment_lines limit results) |} /\
    map endpoints (segment_lines limit results) = adjacent (map location results) /\
    List.length (segment_lines limit results) = (List.length results - 1)%nat /\
    (List.length (lines_of_color red (segment_lines limit results))
     + List.length (lines_of_color blue (segment_lines limit results))
     + List.length (lines_of_color gray (segment_lines limit results))
     = List.length results - 1)%nat.
Proof.
  intros limit results. split; [apply draw_lines_grouped|].
  split; [apply segment_lines_endpoints|]. split.
  - unfold segment_lines. rewrite length_map. apply adjacent_length.
  - apply grouped_count.
Qed.

(** X2.  Group, colour and label of a line always agree, and every line
    joins two consecutive observations.  With the speed of an endpoint
    taken as unknown when it resolves to nothing or to 0, and the segment
    speed as the maximum of the known endpoint speeds: a line of the first
    group is red, labelled with a segment speed that reaches the threshold;
    a line of the second group is blue, labelled with a segment speed below
    it; a line of the third group is gray, labelled "Unknown speed", and
    both its endpoints are unknown.  All lines have weight 4. *)
Theorem lines_classified_by_segment_speed :
  forall limit results,
    exists g,
      draw_lines limit results no_lines = Returned g /\
      Forall (fast_line limit results) (fast_group g) /\
      Forall (slow_line limit results) (slow_group g) /\
      Forall (unknown_line results) (unknown_group g).
Proof.
  intros limit results.
  apply draw_lines_classified; try constructor. intros a b H. exact H.
Qed.

(** ** The fuel-station locator and its markers *)

Lemma affirmative_is_keyed db bbox node :
  In node (affirmative_fuel_nodes db bbox) -> In node (keyed_fuel_nodes db bbox).
Proof.
  unfold affirmative_fuel_nodes, keyed_fuel_nodes. rewrite !filter_In.
  intros [Hin H]. split; [exact Hin|].
  apply andb_true_iff in H. destruct H as [H Hbox].
  apply andb_true_iff in H. destruct H as [Hfuel Hyes].
  rewrite Hfuel, Hbox, andb_true_r. cbn [andb].
  unfold tag_is_yes, dict_mem in *.
  destruct (dict_get (node_tags node) "fuel:octane_98"),
    (dict_get (node_tags node) "fuel:octane_95"); try reflexivity.
  discriminate.
Qed.

(** X3.  The nodes behind the stations.  When the fuel query succeeds,
    every station returned comes from a node of the service's database that
    lies in the bounding box, is tagged [amenity=fuel] and carries one of
    the two grade keys; and every node of the database in the box that is
    tagged [amenity=fuel] with a grade tag equal to [yes] gives a station.
    The statement is about nodes, which is what the query asks for. *)
Theorem fuel_stations_sound_and_complete :
  forall bbox w s db,
    fuel_service w (List.length (requests s)) = Some db ->
    exists nodes,
      fst (get_fuel_stations bbox w s) = Returned (map station_of_node nodes) /\
      (forall node, In node nodes ->
         In node db /\ in_bbox bbox node = true /\
         dict_get (node_tags node) "amenity" = Some "fuel" /\
         dict_mem (node_tags node) "fuel:octane_98"
         || dict_mem (node_tags node) "fuel:octane_95" = true) /\
      (forall node, In node (affirmative_fuel_nodes db bbox) ->
         In node nodes /\ In (station_of_node node) (map station_of_node nodes)).
Proof.
  intros bbox w s db Hdb. exists (keyed_fuel_nodes db bbox).
  rewrite get_fuel_stations_spec, Hdb. split; [reflexivity|]. split.
  - intros node Hin. unfold keyed_fuel_nodes in Hin. apply filter_In in Hin.
    destruct Hin as [Hin H]. apply andb_true_iff in H. destruct H as [H Hbox].
    apply andb_true_iff in H. destruct H as [Hfuel Hkey].
    repeat split; try assumption.
    cbn [matches_filter] in Hfuel.
    destruct (dict_get (node_tags node) "amenity") as [v|]; [|discriminate].
    apply String.eqb_eq in Hfuel. now subst.
  - intros node Hin. apply affirmative_is_keyed in Hin.
    split; [exact Hin|now apply in_map].
Qed.

Lemma fuel_stations_sound_and_complete_witness :
  fuel_service (small_world true [dry_station]) (List.length (requests initial))
  = Some [dry_station] /\
  exists nodes,
    fst (get_fuel_stations whole_earth (small_world true [dry_station]) initial)
    = Returned (map station_of_node nodes) /\
    (forall node, In node nodes -> In node [dry_station]).
Proof.
  split; [reflexivity|].
  destruct (fuel_stations_sound_and_complete whole_earth
              (small_world true [dry_station]) initial [dry_station] eq_refl)
    as (nodes & E & Hsound & _).
  exists nodes. split; [exact E|]. intros node Hin. exact (proj1 (Hsound node Hin)).
Defined.

(** X4.  Adding the stations to a map appends one marker per station, in
    the order of the stations, after the children the map already has, and
    leaves its centre and zoom as they are. *)
Theorem station_markers_appended :
  forall speed_map stations,
    map_children (add_fuel_stations_to_map speed_map stations)
    = map_children speed_map
      ++ map (fun st => MarkerChild (station_marker st)) stations /\
    map_location (add_fuel_stations_to_map speed_map stations)
    = map_location speed_map /\
    map_zoom_start (add_fuel_stations_to_map speed_map stations)
    = map_zoom_start speed_map /\
    List.length (map_children (add_fuel_stations_to_map speed_map stations))
    = (List.length (map_children speed_map) + List.length stations)%nat.
Proof.
  intros speed_map stations. rewrite add_fuel_stations_spec.
  cbn [map_children map_location map_zoom_start].
  rewrite length_app, length_map. repeat split; reflexivity.
Qed.

(** ** The sampler, whatever the size of its input *)

Lemma set_last_length y v : List.length (set_last y v) = List.length y.
Proof.
  unfold set_last. destruct y as [|x rest]; [reflexivity|].
  destruct (exists_last (l := x :: rest) ltac:(discriminate)) as (l' & a & E).
  rewrite E, removelast_last, !length_app. reflexivity.
Qed.

Lemma linspace_int_length start stop num indices :
  linspace_int start stop num = Returned indices ->
  List.length indices = Z.to_nat num.
Proof.
  unfold linspace_int. destruct (num <? 0); [discriminate|].
  intros E. injection E as <-. rewrite !length_map.
  assert (Ha : forall f : F64.float -> F64.float,
             List.length (map f (arange num)) = Z.to_nat num).
  { intros f. unfold arange. now rewrite !length_map, length_seq. }
  destruct (1 <? num); [rewrite set_last_length|]; rewrite length_map;
    destruct (0 <? num - 1); try destruct (F64.eqb _ _); apply Ha.
Qed.

Lemma traverse_getitem_sound {A} (points : list A) : forall indices out,
  traverse (getitem points) indices = Returned out ->
  List.length out = List.length indices /\ incl out points.
Proof.
  induction indices as [|i rest IH]; intros out E.
  - injection E as <-. split; [reflexivity|]. intros x [].
  - cbn [traverse] in E. destruct (getitem points i) as [p|e] eqn:Ep; [|discriminate].
    cbn [Py.bind] in E.
    destruct (traverse (getitem points) rest) as [ps|e] eqn:Er; [|discriminate].
    injection E as <-. destruct (IH ps eq_refl) as [Hlen Hincl].
    split; [cbn; now rewrite Hlen|].
    intros x [<-|Hx]; [|now apply Hincl].
    unfold getitem in Ep.
    destruct ((0 <=? _) && (_ <? _)); [|discriminate].
    destruct (nth_error points _) as [q|] eqn:En; [|discriminate].
    injection Ep as <-. eapply nth_error_In. exact En.
Qed.

Lemma get_sample_points_sound {A} (points out : list A) max_points :
  get_sample_points points max_points = Returned out ->
  incl out points /\
  Z.of_nat (List.length out) = Z.min (Z.of_nat (List.length points)) max_points.
Proof.
  intros E.
  destruct (Z.le_gt_cases (Z.of_nat (List.length points)) max_points) as [Hshort|Hlong].
  - rewrite get_sample_points_short in E by assumption. injection E as <-.
    split; [apply incl_refl|lia].
  - rewrite get_sample_points_long in E by lia.
    destruct (linspace_int 0 _ max_points) as [indices|e] eqn:El; [|discriminate].
    cbn [Py.bind] in E. apply traverse_getitem_sound in E. destruct E as [Hlen Hincl].
    split; [exact Hincl|].
    assert (0 <= max_points).
    { unfold linspace_int in El. destruct (Z.ltb_spec max_points 0); [discriminate|lia]. }
    rewrite Hlen, (linspace_int_length _ _ _ _ El). lia.
Qed.

(** X6.  Whenever the sampler returns, every point of its output is a point
    of its input, and the output has [min(len(points), max_points)]
    points: the sample never grows beyond [max_points]. *)
Theorem sample_drawn_from_input :
  forall (A : Type) (points out : list A) (max_points : Z),
    get_sample_points points max_points = Returned out ->
    incl out points /\
    Z.of_nat (List.length out) = Z.min (Z.of_nat (List.length points)) max_points.
Proof. intros A points out max_points. apply get_sample_points_sound. Qed.

Lemma sample_drawn_from_input_witness :
  get_sample_points [paris; reims; lyon] 2 = Returned [paris; lyon] /\
  incl [paris; lyon] [paris; reims; lyon].
Proof.
  split; [reflexivity|].
  exact (proj1 (sample_drawn_from_input point [paris; reims; lyon] [paris; lyon] 2
                  eq_refl)).
Defined.

(** ** [main] *)

Lemma sampled_within_max (points sampled : list point) max_points :
  get_sample_points points max_points = Returned sampled ->
  Z.of_nat (List.length sampled) <= Z.max 0 max_points.
Proof.
  intros E. destruct (get_sample_points_sound _ _ _ E) as [_ Hmin]. lia.
Qed.

Lemma build_speed_map_requests points results limit w s :
  exists extra,
    requests (snd (build_speed_map points results limit w s)) = requests s ++ extra /\
    (List.length extra <= 1)%nat /\
    filter is_speed_request extra = [].
Proof.
  rewrite build_speed_map_spec.
  destruct points as [|p ps].
  { exists []. rewrite app_nil_r. repeat split; cbn; lia. }
  destruct (get_bounding_box (p :: ps)) as [bbox|e].
  2:{ exists []. rewrite app_nil_r. repeat split; cbn; lia. }
  exists [FuelRequest (fuel_query bbox)].
  destruct (fuel_service w (List.length (requests s))) as [db|];
    [destruct (draw_lines limit results no_lines) as [g|e]|];
    repeat split; cbn; lia.
Qed.

(** X8.  A run sends at most [max_points] speed lookups and at most one
    fuel query, whatever the track and the service do (none at all when
    [max_points] is zero or negative). *)
Theorem requests_bounded_by_max_points :
  forall args w,
    let sent := requests (snd (main args w initial)) in
    Z.of_nat (List.length (filter is_speed_request sent)) <= Z.max 0 (max_points args) /\
    (List.length (filter (fun r => negb (is_speed_request r)) sent) <= 1)%nat.
Proof.
  intros args w sent. subst sent. rewrite main_spec.
  destruct (file_system w (file args)) as [| | |g]; try (cbn; split; lia).
  destruct (get_sample_points _ _) as [sampled|e] eqn:Es; [|cbn; split; lia].
  pose proof (sampled_within_max _ _ _ Es) as Hmax.
  destruct (build_speed_map_requests sampled
              (observations w (List.length (requests initial)) sampled)
              (limit_speed args) w
              (after_requests initial (map (fun p => SpeedRequest p) sampled)))
    as (extra & Hreq & Hlen & Hspeed).
  assert (Hsent : forall r s',
             build_speed_map sampled
               (observations w (List.length (requests initial)) sampled)
               (limit_speed args) w
               (after_requests initial (map (fun p => SpeedRequest p) sampled))
             = (r, s') ->
             requests s' = map (fun p => SpeedRequest p) sampled ++ extra).
  { intros r s' E. rewrite E in Hreq. exact Hreq. }
  assert (Hs : filter is_speed_request (map (fun p => SpeedRequest p) sampled)
               = map (fun p => SpeedRequest p) sampled).
  { clear. induction sampled as [|p ps IH]; [reflexivity|]. cbn. now rewrite IH. }
  assert (Hn : filter (fun r => negb (is_speed_request r))
                 (map (fun p => SpeedRequest p) sampled) = []).
  { clear. induction sampled as [|p ps IH]; [reflexivity|]. exact IH. }
  destruct (build_speed_map _ _ _ _ _) as [[m|e] s'] eqn:Eb; cbn [snd requests];
    rewrite (Hsent _ _ eq_refl), !filter_app, Hs, Hn, Hspeed, app_nil_r, length_map;
    (split; [exact Hmax|]); cbn [app];
    (etransitivity; [apply filter_length_le|exact Hlen]).
Qed.

(** X10.  With [max_points] zero or negative no map is ever produced: once
    the track is loaded, [main] raises ([IndexError] for zero, [ValueError]
    for a negative value) without sending a request or writing a file,
    whatever the track holds. *)
Theorem non_positive_max_points_aborts :
  forall args w g s,
    file_system w (file args) = Track g ->
    max_points args <= 0 ->
    main args w s
    = (Raised (if max_points args <? 0 then ValueError else IndexError), s).
Proof.
  intros args w g s Hfile Hmax. rewrite main_spec, Hfile.
  set (points := List.concat (List.concat g)).
  destruct (Z.ltb_spec (max_points args) 0) as [Hneg|Hzero].
  - rewrite get_sample_points_long by lia.
    rewrite linspace_int_negative by assumption. reflexivity.
  - assert (E0 : max_points args = 0) by lia. rewrite E0.
    assert (Es : get_sample_points points 0 = Returned []).
    { destruct points as [|p ps]; [reflexivity|].
      rewrite get_sample_points_long by (cbn [List.length]; lia). reflexivity. }
    rewrite Es, build_speed_map_spec. cbn [map]. now rewrite after_requests_nil.
Qed.

Lemma non_positive_max_points_aborts_witness :
  file_system (small_world true [])
              (file {| file := "track.gpx"; limit_speed := 110; max_points := 0 |})
  = Track [[[paris; reims]]] /\
  main {| file := "track.gpx"; limit_speed := 110; max_points := 0 |}
       (small_world true []) initial
  = (Raised IndexError, initial).
Proof.
  split; [reflexivity|].
  exact (non_positive_max_points_aborts
           {| file := "track.gpx"; limit_speed := 110; max_points := 0 |}
           (small_world true []) [[[paris; reims]]] initial eq_refl
           ltac:(cbn; lia)).
Defined.





(** ** The bounding box *)

Lemma leb_key x y :
  is_nan x = false -> is_nan y = false ->
  (F64.leb x y = true <-> key_le (float_key x) (float_key y)).
Proof.
  intros Hx Hy. unfold F64.leb, SFleb.
  destruct x as [sx|sx| |sx mx ex], y as [sy|sy| |sy my ey]; try discriminate;
    try destruct sx; try destruct sy; cbn [SFcompare float_key key_le];
    try (split; [intros _; lia|reflexivity]);
    try (split; [discriminate|intros H; exfalso; lia]).
  - change (Pos.compare_cont Eq mx my) with (Pos.compare mx my).
    destruct (Z.compare_spec ex ey); [destruct (Pos.compare_spec mx my)| |];
      cbn [CompOpp];
      (split; [intros ?; try discriminate; lia|intros ?; try reflexivity; exfalso; lia]).
  - change (Pos.compare_cont Eq mx my) with (Pos.compare mx my).
    destruct (Z.compare_spec ex ey); [destruct (Pos.compare_spec mx my)| |];
      (split; [intros ?; try discriminate; lia|intros ?; try reflexivity; exfalso; lia]).
Qed.

Lemma ltb_key x y :
  is_nan x = false -> is_nan y = false ->
  (F64.ltb x y = false <-> key_le (float_key y) (float_key x)).
Proof.
  intros Hx Hy. unfold F64.ltb, SFltb.
  destruct x as [sx|sx| |sx mx ex], y as [sy|sy| |sy my ey]; try discriminate;
    try destruct sx; try destruct sy; cbn [SFcompare float_key key_le];
    try (split; [intros _; lia|reflexivity]);
    try (split; [discriminate|intros H; exfalso; lia]).
  - change (Pos.compare_cont Eq mx my) with (Pos.compare mx my).
    destruct (Z.compare_spec ex ey); [destruct (Pos.compare_spec mx my)| |];
      cbn [CompOpp];
      (split; [intros ?; try discriminate; lia|intros ?; try reflexivity; exfalso; lia]).
  - change (Pos.compare_cont Eq mx my) with (Pos.compare mx my).
    destruct (Z.compare_spec ex ey); [destruct (Pos.compare_spec mx my)| |];
      (split; [intros ?; try discriminate; lia|intros ?; try reflexivity; exfalso; lia]).
Qed.

Lemma key_le_trans a b c : key_le a b -> key_le b c -> key_le a c.
Proof.
  destruct a as [[a1 a2] a3], b as [[b1 b2] b3], c as [[c1 c2] c3].
  unfold key_le. lia.
Qed.

Lemma key_le_refl a : key_le a a.
Proof. destruct a as [[a1 a2] a3]. unfold key_le. lia. Qed.

Lemma key_le_total a b : key_le a b \/ key_le b a.
Proof.
  destruct a as [[a1 a2] a3], b as [[b1 b2] b3]. unfold key_le. lia.
Qed.

Lemma min_from_spec l : forall cur,
  is_nan cur = false -> Forall (fun x => is_nan x = false) l ->
  (min_from cur l = cur \/ In (min_from cur l) l) /\
  is_nan (min_from cur l) = false /\
  key_le (float_key (min_from cur l)) (float_key cur) /\
  Forall (fun x => key_le (float_key (min_from cur l)) (float_key x)) l.
Proof.
  induction l as [|x rest IH]; intros cur Hcur Hall; cbn [min_from].
  - repeat split; [now left|assumption|apply key_le_refl|constructor].
  - inversion Hall as [|? ? Hx Hrest]; subst.
    destruct (F64.ltb x cur) eqn:Elt.
    + destruct (IH x Hx Hrest) as (Hin & Hnan & Hle & Hfa).
      assert (Hxc : key_le (float_key x) (float_key cur)).
      { destruct (key_le_total (float_key x) (float_key cur)) as [|Hc]; [assumption|].
        apply (ltb_key x cur Hx Hcur) in Hc. congruence. }
      repeat split.
      * destruct Hin as [->|Hin]; right; [now left|now right].
      * exact Hnan.
      * eapply key_le_trans; eassumption.
      * constructor; assumption.
    + destruct (IH cur Hcur Hrest) as (Hin & Hnan & Hle & Hfa).
      apply (ltb_key x cur Hx Hcur) in Elt.
      repeat split.
      * destruct Hin as [->|Hin]; [now left|right; now right].
      * exact Hnan.
      * exact Hle.
      * constructor; [eapply key_le_trans; eassumption|assumption].
Qed.

Lemma max_from_spec l : forall cur,
  is_nan cur = false -> Forall (fun x => is_nan x = false) l ->
  (max_from cur l = cur \/ In (max_from cur l) l) /\
  is_nan (max_from cur l) = false /\
  key_le (float_key cur) (float_key (max_from cur l)) /\
  Forall (fun x => key_le (float_key x) (float_key (max_from cur l))) l.
Proof.
  induction l as [|x rest IH]; intros cur Hcur Hall; cbn [max_from].
  - repeat split; [now left|assumption|apply key_le_refl|constructor].
  - inversion Hall as [|? ? Hx Hrest]; subst.
    destruct (F64.ltb cur x) eqn:Elt.
    + destruct (IH x Hx Hrest) as (Hin & Hnan & Hle & Hfa).
      assert (Hxc : key_le (float_key cur) (float_key x)).
      { destruct (key_le_total (float_key cur) (float_key x)) as [|Hc]; [assumption|].
        apply (ltb_key cur x Hcur Hx) in Hc. congruence. }
      repeat split.
      * destruct Hin as [->|Hin]; right; [now left|now right].
      * exact Hnan.
      * eapply key_le_trans; eassumption.
      * constructor; assumption.
    + destruct (IH cur Hcur Hrest) as (Hin & Hnan & Hle & Hfa).
      apply (ltb_key cur x Hcur Hx) in Elt.
      repeat split.
      * destruct Hin as [->|Hin]; [now left|right; now right].
      * exact Hnan.
      * exact Hle.
      * constructor; [eapply key_le_trans; eassumption|assumption].
Qed.

(** The extremes of a non-empty list without NaN. *)
Lemma py_min_spec x rest :
  Forall (fun y => is_nan y = false) (x :: rest) ->
  exists lo,
    py_min (x :: rest) = Returned lo /\ In lo (x :: rest) /\
    Forall (fun y => F64.leb lo y = true) (x :: rest).
Proof.
  intros Hall. inversion Hall as [|? ? Hx Hrest]; subst.
  destruct (min_from_spec rest x Hx Hrest) as (Hin & Hnan & Hle & Hfa).
  exists (min_from x rest). split; [reflexivity|]. split.
  - destruct Hin as [->|Hin]; [now left|now right].
  - constructor.
    + now apply leb_key.
    + rewrite Forall_forall in *. intros y Hy. apply leb_key; auto.
Qed.

Lemma py_max_spec x rest :
  Forall (fun y => is_nan y = false) (x :: rest) ->
  exists hi,
    py_max (x :: rest) = Returned hi /\ In hi (x :: rest) /\
    Forall (fun y => F64.leb y hi = true) (x :: rest).
Proof.
  intros Hall. inversion Hall as [|? ? Hx Hrest]; subst.
  destruct (max_from_spec rest x Hx Hrest) as (Hin & Hnan & Hle & Hfa).
  exists (max_from x rest). split; [reflexivity|]. split.
  - destruct Hin as [->|Hin]; [now left|now right].
  - constructor.
    + now apply leb_key.
    + rewrite Forall_forall in *. intros y Hy. apply leb_key; auto.
Qed.

(** X12.  For a non-empty list of points without NaN coordinates the
    bounding box is the tightest one: each of its four sides is the
    latitude or longitude of some point, and every point lies inside it, so
    the fuel query covers the whole sampled track.  On the empty list the
    function raises [ValueError]. *)
Theorem bounding_box_encloses_points :
  forall p ps,
    Forall plain_point (p :: ps) ->
    exists south west north east,
      get_bounding_box (p :: ps) = Returned (south, west, north, east) /\
      In south (map fst (p :: ps)) /\ In north (map fst (p :: ps)) /\
      In west (map snd (p :: ps)) /\ In east (map snd (p :: ps)) /\
      (forall q, In q (p :: ps) ->
         in_bbox (south, west, north, east) (node_at q) = true) /\
      get_bounding_box [] = Raised ValueError.
Proof.
  intros p ps Hplain.
  assert (Hlat : Forall (fun y => is_nan y = false) (map fst (p :: ps))).
  { apply Forall_map. eapply Forall_impl; [|exact Hplain]. now intros q [H _]. }
  assert (Hlon : Forall (fun y => is_nan y = false) (map snd (p :: ps))).
  { apply Forall_map. eapply Forall_impl; [|exact Hplain]. now intros q [_ H]. }
  cbn [map] in Hlat, Hlon.
  destruct (py_min_spec _ _ Hlat) as (south & Es & Hs & Hsall).
  destruct (py_min_spec _ _ Hlon) as (west & Ew & Hw & Hwall).
  destruct (py_max_spec _ _ Hlat) as (north & En & Hn & Hnall).
  destruct (py_max_spec _ _ Hlon) as (east & Ee & He & Heall).
  exists south, west, north, east.
  split.
  { unfold get_bounding_box. cbn [map]. rewrite Es, Ew, En, Ee. reflexivity. }
  repeat split; try assumption.
  intros q Hq. unfold in_bbox, node_at. cbn [node_lat node_lon].
  rewrite Forall_forall in Hsall, Hwall, Hnall, Heall.
  rewrite (Hsall (fst q)), (Hnall (fst q)), (Hwall (snd q)), (Heall (snd q));
    try reflexivity;
    first [apply (in_map fst (p :: ps) q Hq) | apply (in_map snd (p :: ps) q Hq)].
Qed.

Lemma bounding_box_encloses_points_witness :
  Forall plain_point [paris; reims; lyon] /\
  exists bbox,
    get_bounding_box [paris; reims; lyon] = Returned bbox /\
    in_bbox bbox (node_at reims) = true.
Proof.
  assert (H : Forall plain_point [paris; reims; lyon])
    by (repeat constructor).
  split; [exact H|].
  destruct (bounding_box_encloses_points paris [reims; lyon] H)
    as (south & west & north & east & E & _ & _ & _ & _ & Hin & _).
  exists (south, west, north, east). split; [exact E|].
  apply Hin. right. left. reflexivity.
Defined.

(** ** The resolver on decimal numerals *)

Lemma int_digits_numeral d : forall acc b,
  d <> Decimal.Nil \/ b = true ->
  int_digits acc b (NilEmpty.string_of_uint d) = Some (uint_value acc d).
Proof.
  induction d as [|l IH|l IH|l IH|l IH|l IH|l IH|l IH|l IH|l IH|l IH];
    intros acc b Hb;
    try (cbn [NilEmpty.string_of_uint int_digits uint_value];
         change (digit_value _) with (Some 0) || change (digit_value _) with (Some 1)
         || change (digit_value _) with (Some 2) || change (digit_value _) with (Some 3)
         || change (digit_value _) with (Some 4) || change (digit_value _) with (Some 5)
         || change (digit_value _) with (Some 6) || change (digit_value _) with (Some 7)
         || change (digit_value _) with (Some 8) || change (digit_value _) with (Some 9);
         apply IH; now right).
  destruct Hb as [Hb| ->]; [congruence|reflexivity].
Qed.

Lemma uint_value_pos d : forall acc,
  uint_value (Zpos acc) d = Zpos (Pos.of_uint_acc d acc).
Proof.
  induction d as [|l IH|l IH|l IH|l IH|l IH|l IH|l IH|l IH|l IH|l IH]; intros acc;
    cbn [uint_value Pos.of_uint_acc]; [reflexivity|..];
    rewrite <- IH; f_equal; lia.
Qed.

Lemma uint_value_of_uint d : uint_value 0 d = Z.of_N (Pos.of_uint d).
Proof.
  induction d as [|l IH|l IH|l IH|l IH|l IH|l IH|l IH|l IH|l IH|l IH];
    cbn [uint_value Pos.of_uint]; [reflexivity|exact IH|..];
    cbn [Z.of_N]; rewrite <- uint_value_pos; reflexivity.
Qed.

Lemma numeral_spaceless d : spaceless (NilEmpty.string_of_uint d) = true.
Proof. induction d; cbn [NilEmpty.string_of_uint spaceless]; auto. Qed.

Lemma numeral_unlike_code d : starts_unlike_code (NilEmpty.string_of_uint d) = true.
Proof. destruct d; reflexivity. Qed.

Lemma lstrip_spaceless s : spaceless s = true -> lstrip s = s.
Proof.
  destruct s as [|c rest]; [reflexivity|]. cbn [spaceless lstrip].
  intros H. apply andb_true_iff in H. destruct H as [H _].
  apply negb_true_iff in H. now rewrite H.
Qed.

Lemma rstrip_spaceless s : spaceless s = true -> rstrip s = s.
Proof.
  induction s as [|c rest IH]; [reflexivity|]. cbn [spaceless rstrip].
  intros H. apply andb_true_iff in H. destruct H as [Hc Hrest].
  apply negb_true_iff in Hc. rewrite (IH Hrest), Hc. now destruct rest.
Qed.

Lemma split_from_token t rest : forall acc,
  spaceless t = true ->
  split_from (Some acc) (t ++ rest) = split_from (Some (acc ++ t)%string) rest.
Proof.
  induction t as [|c t' IH]; intros acc H.
  - cbn [String.append]. replace (acc ++ "")%string with acc; [reflexivity|].
    clear. induction acc; cbn; congruence.
  - cbn [spaceless] in H. apply andb_true_iff in H. destruct H as [Hc Ht].
    apply negb_true_iff in Hc.
    cbn [String.append split_from]. rewrite Hc, (IH _ Ht). f_equal. f_equal.
    clear. induction acc; cbn; congruence.
Qed.

(** The first token of a string that starts with a run [t] free of white
    space, followed by a white-space character. *)
Lemma split_first_token t c rest :
  spaceless t = true -> t <> EmptyString -> isspace c = true ->
  exists more, split (t ++ String c rest) = t :: more.
Proof.
  intros Ht Hne Hc. destruct t as [|a t']; [congruence|].
  cbn [spaceless] in Ht. apply andb_true_iff in Ht. destruct Ht as [Ha Ht].
  apply negb_true_iff in Ha.
  unfold split. cbn [String.append split_from]. rewrite Ha.
  rewrite (split_from_token t' (String c rest) _ Ht).
  cbn [split_from String.append]. rewrite Hc. eauto.
Qed.

Lemma split_single_token t :
  spaceless t = true -> t <> EmptyString -> split t = [t].
Proof.
  intros Ht Hne. destruct t as [|a t']; [congruence|].
  cbn [spaceless] in Ht. apply andb_true_iff in Ht. destruct Ht as [Ha Ht].
  apply negb_true_iff in Ha.
  unfold split. cbn [split_from]. rewrite Ha.
  replace t' with (t' ++ "")%string at 1.
  - rewrite (split_from_token t' "" _ Ht). reflexivity.
  - clear. induction t'; cbn; congruence.
Qed.

Lemma not_a_code s : starts_unlike_code s = true -> dict_get SPEED_CODE_MAPPING s = None.
Proof.
  destruct s as [|c rest]; [reflexivity|]. cbn [starts_unlike_code].
  intros H. apply negb_true_iff, Z.eqb_neq in H.
  assert (Hc : Ascii.eqb "F" c = false).
  { apply Ascii.eqb_neq. intros <-. apply H. reflexivity. }
  unfold SPEED_CODE_MAPPING. cbn [dict_get String.eqb]. rewrite Hc. reflexivity.
Qed.

Lemma append_unlike_code t rest :
  t <> EmptyString -> starts_unlike_code t = true ->
  starts_unlike_code (t ++ rest) = true.
Proof. destruct t; [congruence|intros _ H; exact H]. Qed.

Lemma uint_length_nonneg d : 0 <= uint_length d.
Proof. induction d; cbn [uint_length]; lia. Qed.

Lemma count_digits_numeral d :
  count_digits (NilEmpty.string_of_uint d) = uint_length d.
Proof.
  induction d as [|l IH|l IH|l IH|l IH|l IH|l IH|l IH|l IH|l IH|l IH];
    [reflexivity|..];
    cbn [NilEmpty.string_of_uint count_digits uint_length];
    (change (digit_value _) with (Some 0) || change (digit_value _) with (Some 1)
     || change (digit_value _) with (Some 2) || change (digit_value _) with (Some 3)
     || change (digit_value _) with (Some 4) || change (digit_value _) with (Some 5)
     || change (digit_value _) with (Some 6) || change (digit_value _) with (Some 7)
     || change (digit_value _) with (Some 8) || change (digit_value _) with (Some 9));
    cbn iota; now rewrite IH.
Qed.

(** A numeral of [k] digits read after [acc] is worth at least
    [acc * 10 ^ k]. *)
Lemma uint_value_lower d : forall acc,
  0 <= acc -> acc * 10 ^ uint_length d <= uint_value acc d.
Proof.
  induction d as [|l IH|l IH|l IH|l IH|l IH|l IH|l IH|l IH|l IH|l IH]; intros acc Hacc;
    cbn [uint_length uint_value];
    [rewrite Z.pow_0_r; lia|..];
    (etransitivity; [|apply IH; lia]);
    pose proof (uint_length_nonneg l) as Hl;
    rewrite Z.pow_add_r, Z.pow_1_r by lia;
    assert (0 <= 10 ^ uint_length l) by (apply Z.pow_nonneg; lia); nia.
Qed.

Lemma leading_nonzero_lower d :
  leading_nonzero d = true -> 10 ^ (uint_length d - 1) <= uint_value 0 d.
Proof.
  destruct d as [|l|l|l|l|l|l|l|l|l|l]; try discriminate; intros _;
    cbn [uint_length uint_value];
    replace (1 + uint_length l - 1) with (uint_length l) by lia;
    (etransitivity; [|apply uint_value_lower; lia]);
    assert (0 <= 10 ^ uint_length l) by (apply Z.pow_nonneg; lia); lia.
Qed.

Lemma unorm_leading d :
  Decimal.unorm d = Decimal.D0 Decimal.Nil \/ leading_nonzero (Decimal.unorm d) = true.
Proof.
  unfold Decimal.unorm.
  induction d as [|l IH|l IH|l IH|l IH|l IH|l IH|l IH|l IH|l IH|l IH];
    cbn [Decimal.nzhead]; auto.
Qed.

Lemma to_uint_leading p : leading_nonzero (Pos.to_uint p) = true.
Proof.
  pose proof (DecimalPos.Unsigned.to_of (Pos.to_uint p)) as E.
  rewrite DecimalPos.Unsigned.of_to in E. cbn [N.to_uint] in E.
  destruct (unorm_leading (Pos.to_uint p)) as [H|H]; rewrite <- E in H.
  - now apply DecimalPos.Unsigned.to_uint_nonzero in H.
  - exact H.
Qed.

(** The numeral of a positive number below [10 ^ k] has at most [k]
    digits. *)
Lemma to_uint_length p k :
  0 <= k -> Zpos p < 10 ^ k -> uint_length (Pos.to_uint p) <= k.
Proof.
  intros Hk Hp.
  pose proof (leading_nonzero_lower _ (to_uint_leading p)) as Hlow.
  rewrite uint_value_of_uint, DecimalPos.Unsigned.of_to in Hlow. cbn [Z.of_N] in Hlow.
  destruct (Z.le_gt_cases (uint_length (Pos.to_uint p)) k) as [|Hgt]; [assumption|].
  assert (10 ^ k <= 10 ^ (uint_length (Pos.to_uint p) - 1))
    by (apply Z.pow_le_mono_r; lia).
  lia.
Qed.

Lemma int_numeral_to_uint p :
  Zpos p < 10 ^ int_max_str_digits ->
  int_numeral (NilEmpty.string_of_uint (Pos.to_uint p)) = Some (Zpos p).
Proof.
  intros Hp. unfold int_numeral.
  rewrite int_digits_numeral by (left; apply DecimalPos.Unsigned.to_uint_nonnil).
  rewrite uint_value_of_uint, DecimalPos.Unsigned.of_to. cbn [Z.of_N].
  rewrite count_digits_numeral.
  assert (Hcap : 0 <= int_max_str_digits) by (unfold int_max_str_digits; lia).
  pose proof (to_uint_length p _ Hcap Hp) as Hlen.
  destruct (Z.ltb_spec int_max_str_digits (uint_length (Pos.to_uint p))); [lia|reflexivity].
Qed.

(** The decimal rendering of an integer: free of white space, not empty,
    unlike a code, and, when it is within the cap on digits, read back by
    [int] as the integer. *)
Lemma str_of_int_facts n :
  spaceless (str_of_int n) = true /\ str_of_int n <> EmptyString /\
  starts_unlike_code (str_of_int n) = true /\
  (Z.abs n < 10 ^ int_max_str_digits -> int_of_str (str_of_int n) = Some n).
Proof.
  unfold str_of_int. destruct n as [|p|p]; cbn [Z.to_int Z.abs].
  - repeat split; try reflexivity. discriminate.
  - pose proof (DecimalPos.Unsigned.to_uint_nonnil p) as Hnn.
    assert (Es : NilZero.string_of_int (Decimal.Pos (Pos.to_uint p))
                 = NilEmpty.string_of_uint (Pos.to_uint p)).
    { cbn. destruct (Pos.to_uint p); [congruence|reflexivity..]. }
    rewrite Es.
    assert (Hne : NilEmpty.string_of_uint (Pos.to_uint p) <> EmptyString).
    { destruct (Pos.to_uint p); [congruence|discriminate..]. }
    split; [apply numeral_spaceless|]. split; [exact Hne|].
    split; [apply numeral_unlike_code|].
    intros Hcap. unfold int_of_str.
    rewrite lstrip_spaceless, rstrip_spaceless by apply numeral_spaceless.
    pose proof (int_numeral_to_uint p Hcap) as Hd.
    destruct (NilEmpty.string_of_uint (Pos.to_uint p)) as [|c r] eqn:E; [congruence|].
    assert (Hc : code c <> 43 /\ code c <> 45).
    { destruct (Pos.to_uint p); cbn in E; try discriminate;
        injection E as <- _; split; discriminate. }
    destruct Hc as [H43 H45].
    apply Z.eqb_neq in H43, H45. rewrite H43, H45. exact Hd.
  - pose proof (DecimalPos.Unsigned.to_uint_nonnil p) as Hnn.
    assert (Es : NilZero.string_of_int (Decimal.Neg (Pos.to_uint p))
                 = String "-" (NilEmpty.string_of_uint (Pos.to_uint p))).
    { cbn. destruct (Pos.to_uint p); [congruence|reflexivity..]. }
    rewrite Es.
    split; [cbn [spaceless]; rewrite numeral_spaceless; reflexivity|].
    split; [discriminate|]. split; [reflexivity|].
    intros Hcap. unfold int_of_str.
    rewrite lstrip_spaceless, rstrip_spaceless
      by (cbn [spaceless]; rewrite numeral_spaceless; reflexivity).
    change (code "-" =? 43) with false. change (code "-" =? 45) with true. cbn iota.
    now rewrite (int_numeral_to_uint p Hcap).
Qed.

(** X13.  Reading back a decimal rendering: for every integer [n] of at
    most 4300 digits, that is with [|n| < 10 ^ 4300], the text [str(n)],
    alone or followed by a space and anything else (a unit, as in the
    labels "<n> km/h" of the map), resolves to [n].  The bound is the cap
    of the interpreter on the digits [int] converts. *)
Theorem resolver_reads_back_integers :
  forall n rest,
    Z.abs n < 10 ^ int_max_str_digits ->
    parse_speed (Some (str_of_int n)) = Returned (Some n) /\
    parse_speed (Some (str_of_int n ++ " " ++ rest)%string) = Returned (Some n).
Proof.
  intros n rest Hcap. destruct (str_of_int_facts n) as (Hsp & Hne & Hcode & Hint).
  specialize (Hint Hcap). split.
  - apply (parse_speed_integer_token _ (str_of_int n) []); [|exact Hint].
    now apply split_single_token.
  - destruct (split_first_token (str_of_int n) " " rest Hsp Hne eq_refl) as (more & Hs).
    apply (parse_speed_integer_token _ (str_of_int n) more); [|exact Hint].
    exact Hs.
Qed.

Lemma resolver_reads_back_integers_witness :
  Z.abs (-90) < 10 ^ int_max_str_digits /\
  parse_speed (Some "-90") = Returned (Some (-90)) /\
  parse_speed (Some "-90 km/h") = Returned (Some (-90)).
Proof.
  assert (H : Z.abs (-90) < 10 ^ int_max_str_digits) by (vm_compute; reflexivity).
  split; [exact H|].
  exact (resolver_reads_back_integers (-90) "km/h" H).
Defined.

(** X14.  A code of the table is recognised only when it is the whole raw
    value: followed by a space and anything else, or preceded by a space,
    each of the four codes resolves to unknown, although a number in the
    same places is accepted. *)
Theorem codes_match_whole_value :
  Forall (fun kv =>
            parse_speed (Some (fst kv)) = Returned (Some (snd kv)) /\
            (forall rest,
                parse_speed (Some (fst kv ++ " " ++ rest)%string) = Returned None) /\
            parse_speed (Some (" " ++ fst kv)%string) = Returned None)
         SPEED_CODE_MAPPING /\
  parse_speed (Some " 50") = Returned (Some 50) /\
  parse_speed (Some "50 FR:urban") = Returned (Some 50).
Proof.
  split; [|split; reflexivity].
  repeat constructor; cbn [fst snd]; intros rest; rewrite parse_speed_refines;
    cbn [resolve_spec];
    match goal with
    | |- context [split (?k ++ " " ++ rest)] =>
        destruct (split_first_token k " " rest eq_refl ltac:(discriminate) eq_refl)
          as (more & Hs)
    end;
    cbn [String.append] in Hs |- *; rewrite Hs; reflexivity.
Qed.

(** ** The sampler: no position is taken twice *)

Local Open Scope R_scope.

Section Spread.
Variables u d k sv : R.
Hypothesis Hu : 0 < u.
Hypothesis Hdu : d * u <= 1 / 8.
Hypothesis Hk : 1 <= k.
Hypothesis Hd : k + 1 <= d.
Hypothesis Hkk : k * (k + 1) * u <= 1 / 2.
Hypothesis Hsv : Rabs (sv - d / k) <= u * (d / k).

Lemma spread_step i yi yj :
  0 <= i -> i + 1 <= k - 1 ->
  Rabs (yi - i * sv) <= u * (i * sv) ->
  Rabs (yj - (i + 1) * sv) <= u * ((i + 1) * sv) ->
  yi + 1 <= yj.
Proof.
  intros Hi Hj Hyi Hyj.
  apply Rabs_bound in Hyi. apply Rabs_bound in Hyj.
  assert (Hkd : k < d) by lra.
  pose proof (sv_bounds u d k sv Hsv) as Hs.
  pose proof (sv_pos u d k sv Hu Hdu Hk Hkd Hsv) as Hp.
  pose proof (u_small u d k Hu Hdu Hk Hkd) as Hus.
  set (q := d / k) in *.
  assert (Ed : d = q * k) by (unfold q; field; lra).
  assert (H1 : sv * (1 - u * (2 * i + 1)) <= yj - yi) by nra.
  assert (H2 : 0 <= 1 - u * (2 * i + 1)).
  { assert (u * (2 * i + 1) <= u * (2 * k)) by (apply Rmult_le_compat_l; lra). nra. }
  assert (H3 : 1 - 2 * k * u <= (1 - u) * (1 - u * (2 * i + 1))).
  { assert (u * (2 * i + 1) <= u * (2 * k - 1)) by (apply Rmult_le_compat_l; lra).
    assert (0 <= u * u * (2 * i + 1)) by (apply Rmult_le_pos; nra). nra. }
  assert (H4 : 0 <= 1 - 2 * k * u) by nra.
  assert (H5 : q * (1 - u) * (1 - u * (2 * i + 1)) <= sv * (1 - u * (2 * i + 1)))
    by (apply Rmult_le_compat_r; lra).
  assert (H6 : q * (1 - 2 * k * u) <= q * ((1 - u) * (1 - u * (2 * i + 1)))).
  { apply Rmult_le_compat_l; [|exact H3]. unfold q. apply Rlt_le, Rdiv_lt_0_compat; lra. }
  assert (H7 : k <= k * (q * (1 - 2 * k * u))).
  { replace (k * (q * (1 - 2 * k * u))) with (d * (1 - 2 * k * u)) by (rewrite Ed; ring).
    assert ((k + 1) * (1 - 2 * k * u) <= d * (1 - 2 * k * u))
      by (apply Rmult_le_compat_r; lra).
    nra. }
  assert (H8 : 1 <= q * (1 - 2 * k * u)).
  { apply Rmult_le_reg_l with k; [lra|]. lra. }
  lra.
Qed.

Lemma spread_below_stop i y :
  0 <= i <= k - 1 -> Rabs (y - i * sv) <= u * (i * sv) -> y < d.
Proof.
  intros Hi Hy. apply Rabs_bound in Hy.
  assert (Hkd : k < d) by lra.
  pose proof (sv_bounds u d k sv Hsv) as Hs.
  pose proof (sv_pos u d k sv Hu Hdu Hk Hkd Hsv) as Hp.
  pose proof (u_small u d k Hu Hdu Hk Hkd) as Hus.
  assert (Hku : k * u <= 1 / 8) by nra.
  set (q := d / k) in *.
  assert (Ed : d = q * k) by (unfold q; field; lra).
  assert (Hq : 0 < q) by (unfold q; apply Rdiv_lt_0_compat; lra).
  assert (H1 : y <= i * sv * (1 + u)) by nra.
  assert (H2 : i * sv * (1 + u) <= (k - 1) * sv * (1 + u)).
  { apply Rmult_le_compat_r; [lra|]. apply Rmult_le_compat_r; lra. }
  assert (H3 : (k - 1) * sv * (1 + u) <= (k - 1) * (q * (1 + u)) * (1 + u)).
  { apply Rmult_le_compat_r; [lra|]. apply Rmult_le_compat_l; lra. }
  assert (H4 : (k - 1) * ((1 + u) * (1 + u)) < k).
  { assert (u * u <= u) by nra. nra. }
  assert (H5 : q * ((k - 1) * ((1 + u) * (1 + u))) < q * k)
    by (apply Rmult_lt_compat_l; lra).
  rewrite Ed. lra.
Qed.
End Spread.

Local Open Scope Z_scope.

Lemma u64_squared K : 1 <= K < 2 ^ 26 -> (IZR K * (IZR K + 1) * u64 <= 1 / 2)%R.
Proof.
  intros HK. pose proof u64_val as Hu. pose proof u64_pos as Hp.
  change (2 ^ 53) with (2 * 2 ^ 52) in Hu. rewrite mult_IZR in Hu.
  assert (H : (IZR (K * (K + 1)) <= IZR (2 ^ 52))%R).
  { apply IZR_le. change (2 ^ 52) with (2 ^ 26 * 2 ^ 26). nia. }
  rewrite mult_IZR, plus_IZR in H.
  assert (IZR K * (IZR K + 1) * u64 <= IZR (2 ^ 52) * u64)%R
    by (apply Rmult_le_compat_r; lra).
  lra.
Qed.

Lemma sample_index_step D K (i : nat) :
  1 <= K < D -> D < 2 ^ 50 -> K < 2 ^ 26 -> Z.of_nat (S i) < K ->
  sample_index (lin_step D K) i < sample_index (lin_step D K) (S i).
Proof.
  intros HK HD HK26 Hi.
  destruct (sample_index_value D K i HK HD ltac:(lia)) as (yi & [Hi1 Hi2] & Hyi & _).
  destruct (sample_index_value D K (S i) HK HD Hi) as (yj & [Hj1 Hj2] & Hyj & _).
  assert (H53 : 2 ^ 50 < 2 ^ 53) by reflexivity.
  destruct (lin_step_spec D K) as (ms & es & E & Hds & Hes & Herr); try lia.
  rewrite E in *.
  pose proof u64_pos as Hu. pose proof (u64_scaled D HD) as Hdu.
  pose proof (u64_squared K ltac:(lia)) as Hkk.
  assert (Hk1 : (1 <= IZR K)%R) by (apply IZR_le; lia).
  assert (Hkd : (IZR K + 1 <= IZR D)%R) by (rewrite <- plus_IZR; apply IZR_le; lia).
  assert (Hstep : (yi + 1 <= yj)%R).
  { apply (spread_step u64 (IZR D) (IZR K) _ Hu Hdu Hk1 Hkd Hkk Herr (IZR (Z.of_nat i)));
      try assumption.
    - apply IZR_le. lia.
    - rewrite <- plus_IZR, <- minus_IZR. apply IZR_le. lia.
    - rewrite <- plus_IZR. replace (Z.of_nat i + 1) with (Z.of_nat (S i)) by lia.
      exact Hyj. }
  apply lt_IZR. lra.
Qed.

Lemma sample_index_below_stop D K (i : nat) :
  1 <= K < D -> D < 2 ^ 50 -> Z.of_nat i < K ->
  sample_index (lin_step D K) i < D.
Proof.
  intros HK HD Hi.
  destruct (sample_index_value D K i HK HD Hi) as (y & [H1 H2] & Hy & _).
  assert (H53 : 2 ^ 50 < 2 ^ 53) by reflexivity.
  destruct (lin_step_spec D K) as (ms & es & E & Hds & Hes & Herr); try lia.
  rewrite E in *.
  pose proof u64_pos as Hu. pose proof (u64_scaled D HD) as Hdu.
  assert (Hk1 : (1 <= IZR K)%R) by (apply IZR_le; lia).
  assert (Hkd : (IZR K + 1 <= IZR D)%R) by (rewrite <- plus_IZR; apply IZR_le; lia).
  assert (Hlt : (y < IZR D)%R).
  { apply (spread_below_stop u64 (IZR D) (IZR K) _ Hu Hdu Hk1 Hkd Herr
             (IZR (Z.of_nat i))); [|exact Hy].
    split; [apply IZR_le; lia|]. rewrite <- minus_IZR. apply IZR_le. lia. }
  apply lt_IZR. lra.
Qed.

Lemma sample_index_strict D K (i j : nat) :
  1 <= K < D -> D < 2 ^ 50 -> K < 2 ^ 26 -> (i < j)%nat -> Z.of_nat j < K ->
  sample_index (lin_step D K) i < sample_index (lin_step D K) j.
Proof.
  intros HK HD HK26 Hij Hj.
  pose proof (sample_index_step D K i HK HD HK26 ltac:(lia)) as Hs.
  pose proof (sample_index_mono D K (S i) j HK HD ltac:(lia) Hj) as Hm.
  lia.
Qed.

(** X15.  For at most 2^50 points and [2 <= max_points <= 2^26] below the
    number of points, the indices the sampler takes are strictly
    increasing: no position of the input is taken twice, and the output
    keeps the order of the input. *)
Theorem sample_positions_distinct :
  forall (A : Type) (points : list A) (max_points : Z),
    Z.of_nat (List.length points) <= 2 ^ 50 ->
    2 <= max_points < Z.of_nat (List.length points) ->
    max_points <= 2 ^ 26 ->
    exists indices out,
      linspace_int 0 (Z.of_nat (List.length points) - 1) max_points = Returned indices /\
      get_sample_points points max_points = Returned out /\
      picks points indices out /\
      (forall i j x y,
          (i < j)%nat -> nth_error indices i = Some x -> nth_error indices j = Some y ->
          x < y) /\
      NoDup indices.
Proof.
  intros A points max_points Hlen Hmax H26.
  destruct (sampled_output points max_points Hlen Hmax) as (out & Eout & Hp).
  eexists. exists out.
  split; [exact (sampled_linspace points max_points Hlen Hmax)|].
  split; [exact Eout|]. split; [exact Hp|].
  set (D := Z.of_nat (List.length points) - 1) in *.
  set (K := max_points - 1) in *.
  assert (Hstrict : forall i j x y,
             (i < j)%nat ->
             nth_error (map (sample_index (lin_step D K)) (seq 0 (Z.to_nat K)) ++ [D]) i
             = Some x ->
             nth_error (map (sample_index (lin_step D K)) (seq 0 (Z.to_nat K)) ++ [D]) j
             = Some y ->
             x < y).
  { intros i j x y Hij Hi Hj.
    apply nth_error_indices in Hi; [|unfold K; lia].
    apply nth_error_indices in Hj; [|unfold K; lia].
    destruct Hi as [[Hi ->]|[Hi ->]]; [|lia].
    destruct Hj as [[Hj ->]|[Hj ->]].
    - apply sample_index_strict; unfold D, K in *; lia.
    - apply sample_index_below_stop; unfold D, K in *; lia. }
  split; [exact Hstrict|].
  apply (proj2 (NoDup_nth_error _)). intros i j Hi E.
  destruct (nth_error _ i) as [x|] eqn:Ei; [|apply nth_error_None in Ei; lia].
  symmetry in E.
  destruct (Nat.lt_trichotomy i j) as [Hlt|[Heq|Hgt]]; [|exact Heq|].
  - pose proof (Hstrict i j x x Hlt Ei E). lia.
  - pose proof (Hstrict j i x x Hgt E Ei). lia.
Qed.

Lemma sample_positions_distinct_witness :
  Z.of_nat (List.length [paris; reims; lyon]) <= 2 ^ 50 /\
  2 <= 2 < Z.of_nat (List.length [paris; reims; lyon]) /\
  2 <= 2 ^ 26 /\
  exists indices,
    linspace_int 0 (Z.of_nat (List.length [paris; reims; lyon]) - 1) 2 = Returned indices /\
    NoDup indices.
Proof.
  split; [cbn; lia|]. split; [cbn; lia|]. split; [lia|].
  destruct (sample_positions_distinct point [paris; reims; lyon] 2
              ltac:(cbn; lia) ltac:(cbn; lia) ltac:(lia))
    as (indices & out & E & _ & _ & _ & Hnd).
  exists indices. split; assumption.
Defined.

(** ** The lookup: which element wins *)

Lemma first_tagged_app pre el post v :
  Forall (fun e => dict_get (get_tags e) "maxspeed" = None) pre ->
  dict_get (get_tags el) "maxspeed" = Some v ->
  first_tagged (pre ++ el :: post) = Some v.
Proof.
  intros Hpre Hel. induction Hpre as [|e pre' He _ IH]; cbn [app first_tagged].
  - now rewrite Hel.
  - now rewrite He.
Qed.

Lemma first_tagged_none els :
  Forall (fun e => dict_get (get_tags e) "maxspeed" = None) els ->
  first_tagged els = None.
Proof.
  intros H. induction H as [|e els' He _ IH]; [reflexivity|].
  cbn [first_tagged]. now rewrite He.
Qed.

(** X16.  On a 200 answer the lookup returns the [maxspeed] of the first
    element that carries the tag, whatever elements without it come before
    and whatever follows, later [maxspeed] values included. *)
Theorem lookup_takes_first_tagged_element :
  forall la lo w s pre el post v,
    speed_service w (List.length (requests s)) (la, lo)
    = Reply 200 (Elements (pre ++ el :: post)) ->
    Forall (fun e => dict_get (get_tags e) "maxspeed" = None) pre ->
    dict_get (get_tags el) "maxspeed" = Some v ->
    fst (query_max_speed la lo w s) = Returned (Some v).
Proof.
  intros la lo w s pre el post v Hreply Hpre Hel.
  rewrite query_max_speed_spec, Hreply. cbn [fst lookup_spec Z.eqb Pos.eqb].
  change (200 =? 200) with true. cbn iota.
  now rewrite (first_tagged_app pre el post v Hpre Hel).
Qed.

Lemma lookup_takes_first_tagged_element_witness :
  fst (query_max_speed (fst paris) (snd paris)
         {| file_system := fun _ => Unreadable;
            speed_service := fun _ _ =>
              Reply 200 (Elements ([ {| el_tags := None |} ]
                                   ++ {| el_tags := Some [("highway", "primary");
                                                          ("maxspeed", "80")] |}
                                   :: [ {| el_tags := Some [("maxspeed", "50")] |} ]));
            fuel_service := fun _ => None;
            clock := "" |}
         initial)
  = Returned (Some "80").
Proof.
  apply (lookup_takes_first_tagged_element _ _ _ _
           [ {| el_tags := None |} ]
           {| el_tags := Some [("highway", "primary"); ("maxspeed", "80")] |}
           [ {| el_tags := Some [("maxspeed", "50")] |} ] "80").
  - reflexivity.
  - repeat constructor.
  - reflexivity.
Defined.

(** ** Markers and lines together *)

Lemma marker_red limit o :
  mk_color (point_marker limit o) = red
  <-> exists v, resolve_spec (maxspeed o) = Some v /\ limit <= v.
Proof.
  rewrite point_marker_spec. cbn [mk_color]. unfold marker_color_spec.
  destruct (resolve_spec (maxspeed o)) as [v|].
  - destruct (Z.ltb_spec v limit); split.
    + discriminate.
    + intros (v' & E & H'). injection E as <-. lia.
    + intros _. exists v. split; [reflexivity|lia].
    + reflexivity.
  - split; [discriminate|]. intros (v & E & _). discriminate.
Qed.

(** X17.  With a positive threshold the two loops agree on red: the line
    between two observations is red exactly when the marker of one of its
    endpoints is red. *)
Theorem red_line_iff_red_endpoint :
  forall limit a b,
    0 < limit ->
    exists g line,
      draw_lines limit [a; b] no_lines = Returned g /\
      fast_group g ++ slow_group g ++ unknown_group g = [line] /\
      (pl_color line = red
       <-> mk_color (point_marker limit a) = red
           \/ mk_color (point_marker limit b) = red).
Proof.
  intros limit a b Hlimit.
  change (draw_lines limit [a; b] no_lines)
    with (Py.bind (draw_line limit a b no_lines) (draw_lines limit [b])).
  rewrite draw_line_spec. cbn [Py.bind draw_lines].
  pose proof (marker_red limit a) as Ha. pose proof (marker_red limit b) as Hb.
  unfold line_speed.
  destruct (resolve_spec (maxspeed a)) as [x|], (resolve_spec (maxspeed b)) as [y|];
    try destruct (Z.eqb_spec x 0); try destruct (Z.eqb_spec y 0);
    cbn [segment_speed_spec];
    try match goal with
      | |- context [limit <=? ?v] => destruct (Z.leb_spec limit v)
      end;
    eexists; eexists; (split; [reflexivity|]); (split; [reflexivity|]);
    rewrite Ha, Hb; cbn [line_between pl_color];
    (split;
     [ intros Hred; try discriminate;
       first [ left; eexists; split; [reflexivity|lia]
             | right; eexists; split; [reflexivity|lia]
             | match goal with
               | H : limit <= Z.max ?p ?q |- _ =>
                   destruct (Z.le_gt_cases limit p); [left|right];
                   eexists; (split; [reflexivity|lia])
               end ]
     | intros [(v & E & Hv)|(v & E & Hv)]; try discriminate;
       try reflexivity; injection E as <-; exfalso; lia ]).
Qed.

Lemma red_line_iff_red_endpoint_witness :
  0 < 110 /\
  exists g line,
    draw_lines 110 [observed paris (Some "130"); observed reims (Some "50")] no_lines
    = Returned g /\
    fast_group g ++ slow_group g ++ unknown_group g = [line].
Proof.
  split; [lia|].
  destruct (red_line_iff_red_endpoint 110 (observed paris (Some "130"))
              (observed reims (Some "50")) ltac:(lia))
    as (g & line & E & Hl & _).
  exists g, line. split; assumption.
Defined.
